(** * A shallow embedding of [app.py], the LinkedIn resume scraper service

    The service drives a browser: it logs in, types a query, scrolls the
    result page while collecting profile links, then checks every profile
    in a pool of workers, each with a browser of its own.

    The browser is the environment.  Every call into Selenium is answered
    by a record that says what the call returns or which exception it
    raises; the Python code is translated statement by statement on top of
    a small monad with local variables, an event trace, exceptions and
    fuel for the one unbounded loop. *)

From Stdlib Require Import ZArith String Ascii.
From stdpp Require Import gmap strings list.

Local Open Scope string_scope.
Local Open Scope Z_scope.
Local Open Scope list_scope.

(** ** Python strings

    A [str] is modelled by the [string] of the bytes of its UTF-8
    encoding.  [strip] removes every white-space character of Python,
    ASCII or not; a space is the single byte 32 and never part of another
    character, so replacing it byte by byte is exact.  The resume pattern
    is matched with the case folding of the letters [A-Z]. *)

Module PyStr.

(** White space as [str.strip()] sees it, on the UTF-8 encoding: the
    code points 9-13, 28-32 (one byte), U+0085 and U+00A0 (two bytes),
    U+1680, U+2000-U+200A, U+2028, U+2029, U+202F, U+205F and U+3000
    (three bytes). *)
Definition is_space1 (c : ascii) : bool :=
  let n := N_of_ascii c in
  (((9 <=? n) && (n <=? 13)) || ((28 <=? n) && (n <=? 32)))%N.

Definition is_space2 (c1 c2 : ascii) : bool :=
  let n1 := N_of_ascii c1 in
  let n2 := N_of_ascii c2 in
  ((n1 =? 194) && ((n2 =? 133) || (n2 =? 160)))%N.

Definition is_space3 (c1 c2 c3 : ascii) : bool :=
  let n1 := N_of_ascii c1 in
  let n2 := N_of_ascii c2 in
  let n3 := N_of_ascii c3 in
  (((n1 =? 225) && (n2 =? 154) && (n3 =? 128))
   || ((n1 =? 226) && (n2 =? 128)
       && (((128 <=? n3) && (n3 <=? 138))
           || (n3 =? 168) || (n3 =? 169) || (n3 =? 175)))
   || ((n1 =? 226) && (n2 =? 129) && (n3 =? 159))
   || ((n1 =? 227) && (n2 =? 128) && (n3 =? 128)))%N.

(** What follows the white-space character at the start of [s], if [s]
    starts with one. *)
Definition head_space (s : string) : option string :=
  match s with
  | EmptyString => None
  | String c1 s1 =>
      if is_space1 c1 then Some s1
      else
        match s1 with
        | EmptyString => None
        | String c2 s2 =>
            if is_space2 c1 c2 then Some s2
            else
              match s2 with
              | EmptyString => None
              | String c3 s3 => if is_space3 c1 c2 c3 then Some s3 else None
              end
        end
  end.

(** [s.lstrip()] *)
Fixpoint lstrip (s : string) : string :=
  match s with
  | EmptyString => EmptyString
  | String c1 s1 =>
      if is_space1 c1 then lstrip s1
      else
        match s1 with
        | EmptyString => s
        | String c2 s2 =>
            if is_space2 c1 c2 then lstrip s2
            else
              match s2 with
              | EmptyString => s
              | String c3 s3 => if is_space3 c1 c2 c3 then lstrip s3 else s
              end
        end
  end.

(** Every character of [s] is white space ([s.isspace()] or [s == ""]). *)
Fixpoint all_space (s : string) : bool :=
  match s with
  | EmptyString => true
  | String c1 s1 =>
      if is_space1 c1 then all_space s1
      else
        match s1 with
        | EmptyString => false
        | String c2 s2 =>
            if is_space2 c1 c2 then all_space s2
            else
              match s2 with
              | EmptyString => false
              | String c3 s3 => is_space3 c1 c2 c3 && all_space s3
              end
        end
  end.

(** [s.rstrip()]: cut where only white space is left. *)
Fixpoint rstrip (s : string) : string :=
  match s with
  | EmptyString => EmptyString
  | String c s' => if all_space s then EmptyString else String c (rstrip s')
  end.

(** [s.strip()] *)
Definition strip (s : string) : string := rstrip (lstrip s).

(** [s.replace(a, b)] for one-character [a] and [b]. *)
Fixpoint replace_char (a b : ascii) (s : string) : string :=
  match s with
  | EmptyString => EmptyString
  | String c s' =>
      String (if Ascii.eqb c a then b else c) (replace_char a b s')
  end.

(** ASCII case folding, the part of [re.IGNORECASE] that ASCII text sees. *)
Definition lower (c : ascii) : ascii :=
  let n := N_of_ascii c in
  if ((65 <=? n) && (n <=? 90))%N then ascii_of_N (n + 32) else c.

(** The literal [pat] matches at the start of [s], ignoring case. *)
Fixpoint match_here (pat s : string) : bool :=
  match pat, s with
  | EmptyString, _ => true
  | String _ _, EmptyString => false
  | String p pat', String c s' =>
      Ascii.eqb (lower p) (lower c) && match_here pat' s'
  end.

(** One of the alternatives matches at the start of [s]. *)
Definition alt_here (alts : list string) (s : string) : bool :=
  existsb (fun pat => match_here pat s) alts.

(** [re.search(alts, s, re.IGNORECASE)] for a pattern that is an
    alternation of literals: some position of [s] starts a match. *)
Fixpoint re_search (alts : list string) (s : string) : bool :=
  alt_here alts s ||
  match s with
  | EmptyString => false
  | String _ s' => re_search alts s'
  end.

(** [os.path.join(a, b)] on POSIX, for two components. *)
Definition ends_with_slash (a : string) : bool :=
  match String.get (String.length a - 1) a with
  | Some c => Ascii.eqb c "/"
  | None => false
  end.

Definition os_path_join (a b : string) : string :=
  if String.prefix "/" b then b
  else if (String.eqb a "") || ends_with_slash a then a +:+ b
  else a +:+ "/" +:+ b.

End PyStr.

(** ** Constants of the module *)

Definition MAX_PROFILES_DEFAULT : Z := 20.
Definition MAX_WORKERS : nat := 6.
Definition STALL_BOUND : Z := 30.

(** [RESUME_REGEX = re.compile(r"\.pdf|\.docx|\.doc|resume|cv", re.IGNORECASE)] *)
Definition FILE_REGEX : list string := [".pdf"; ".docx"; ".doc"].
Definition KEYWORD_REGEX : list string := ["resume"; "cv"].
Definition RESUME_REGEX : list string := FILE_REGEX ++ KEYWORD_REGEX.

(** ** Exceptions

    The exception classes the code raises or catches.  All of them derive
    from [Exception], so an [except Exception] clause catches every [exn]. *)

Inductive exn : Type :=
  | TimeoutException (msg : string)
  | WebDriverException (msg : string)
  | OSError (msg : string)
  | RuntimeError (msg : string)
  | KeyError (key : string)
  | HTTPException (status_code : Z) (detail : string).

(** [str(e)] *)
Definition str_exn (e : exn) : string :=
  match e with
  | TimeoutException msg | WebDriverException msg | OSError msg
  | RuntimeError msg => msg
  | KeyError key => "'" +:+ key +:+ "'"
  | HTTPException code detail => detail
  end.

Definition is_HTTPException (e : exn) : bool :=
  match e with HTTPException _ _ => true | _ => false end.

(** What the outside world (Selenium, the browser, the file system) can
    raise into the program.  It never raises one of the program's own
    [RuntimeError], [KeyError] or [HTTPException]. *)
Inductive fault : Type :=
  | Timeout (msg : string)
  | DriverFault (msg : string)
  | OsFault (msg : string).

Definition exn_of_fault (f : fault) : exn :=
  match f with
  | Timeout msg => TimeoutException msg
  | DriverFault msg => WebDriverException msg
  | OsFault msg => OSError msg
  end.

(** The answer of the environment to a call that returns an [A]. *)
Definition reply (A : Type) : Type := A + fault.

(** ** Data of the program *)

(** A browser session is named after its owner: the request handler or
    the worker checking the [i]-th candidate. *)
Inductive session : Type :=
  | Primary
  | Worker (i : nat).

#[global] Instance session_eq_dec : EqDecision session.
Proof. solve_decision. Defined.

(** The dictionary built at the top of [detect_resume_worker]; its four
    keys are fixed, so it is a record. *)
Record ProfileCheckResult : Type := {
  profile_url : option string;
  resume_found : bool;
  resume_links : list string;
  error : option string;
}.

(** What a run does to the world, in order. *)
Inductive event : Type :=
  | Created (s : session)
  | Quit (s : session)
  | Typed (s : session) (text : string)
  | SavedCsv (path : string) (rows : list ProfileCheckResult).

(** ** The monad of the embedding

    A computation reads and writes its local variables [L] and appends to
    the event trace.  It returns a value, raises an exception, or (for the
    scroll loop only) runs out of fuel: [None]. *)

Definition M (L A : Type) : Type :=
  L * list event → option ((A + exn) * (L * list event)).

Section Monad.
Context {L : Type}.

Definition ret {A} (a : A) : M L A := λ st, Some (inl a, st).

Definition raise {A} (e : exn) : M L A := λ st, Some (inr e, st).

Definition diverge {A} : M L A := λ _, None.

Definition bind {A B} (m : M L A) (k : A → M L B) : M L B := λ st,
  match m st with
  | None => None
  | Some (inl a, st') => k a st'
  | Some (inr e, st') => Some (inr e, st')
  end.

(** [try: m  except Exception as e: h e] *)
Definition try_except {A} (m : M L A) (h : exn → M L A) : M L A := λ st,
  match m st with
  | Some (inr e, st') => h e st'
  | r => r
  end.

(** [try: m  except TimeoutException: h]; any other exception goes on. *)
Definition try_except_timeout {A} (m : M L A) (h : M L A) : M L A :=
  try_except m (λ e, match e with TimeoutException _ => h | _ => raise e end).

(** [try: m  finally: f] *)
Definition try_finally {A} (m : M L A) (f : M L unit) : M L A := λ st,
  match m st with
  | None => None
  | Some (r, st') =>
      match f st' with
      | None => None
      | Some (inl _, st'') => Some (r, st'')
      | Some (inr e, st'') => Some (inr e, st'')
      end
  end.

Definition get_locals : M L L := λ st, Some (inl st.1, st).

Definition modify_locals (f : L → L) : M L unit := λ st,
  Some (inl tt, (f st.1, st.2)).

Definition emit (e : event) : M L unit := λ st,
  Some (inl tt, (st.1, st.2 ++ [e])).

Definition emit_all (es : list event) : M L unit := λ st,
  Some (inl tt, (st.1, st.2 ++ es)).

(** A call into the environment that returns nothing. *)
Definition call (o : option fault) : M L unit :=
  match o with
  | None => ret tt
  | Some f => raise (exn_of_fault f)
  end.

(** A call into the environment that returns a value. *)
Definition ask {A} (r : reply A) : M L A :=
  match r with
  | inl a => ret a
  | inr f => raise (exn_of_fault f)
  end.

(** The outcome of a computation that ran elsewhere ([future.result()]). *)
Definition lift {A} (r : A + exn) : M L A :=
  match r with
  | inl a => ret a
  | inr e => raise e
  end.

(** [time.sleep(t)] for a positive [t]: no effect the model sees. *)
Definition sleep : M L unit := ret tt.

End Monad.

#[global] Instance M_ret {L} : MRet (M L) := λ A, ret.
#[global] Instance M_bind {L} : MBind (M L) := λ A B k m, bind m k.

(** ** [create_driver] *)

(** What starting a browser does on this machine. *)
Record DriverEnv : Type := {
  chromedriver_exists : bool;      (* os.path.exists(chromedriver_env) *)
  chrome_start : option fault;     (* webdriver.Chrome(service=..., options=...) *)
  cdp_tweak : option fault;        (* driver.execute_cdp_cmd(...) *)
  manager_install : option fault;  (* ChromeDriverManager().install() *)
}.

Definition CHROMEDRIVER_ERROR : string :=
  "Could not start chromedriver. Ensure chromedriver matching the Chromium/Chrome version is installed in the container or set CHROMEDRIVER_PATH env var to the chromedriver binary.".

Section Driver.
Context {L : Type}.

(** [webdriver.Chrome(...)]: the browser process exists from the moment
    the constructor returns. *)
Definition webdriver_Chrome (s : session) (env : DriverEnv) : M L session :=
  call (chrome_start env);; emit (Created s);; mret s.

(** [driver.quit()] *)
Definition driver_quit (s : session) (o : option fault) : M L unit :=
  emit (Quit s);; call o.

Definition create_driver (s : session) (env : DriverEnv) : M L session :=
  if chromedriver_exists env then
    driver ← webdriver_Chrome s env;
    try_except (call (cdp_tweak env)) (λ _, mret tt);;
    mret driver
  else
    try_except
      (call (manager_install env);;
       driver ← webdriver_Chrome s env;
       try_except (call (cdp_tweak env)) (λ _, mret tt);;
       mret driver)
      (λ _, raise (RuntimeError CHROMEDRIVER_ERROR)).

End Driver.

(** ** [login_linkedin] *)

Record LoginEnv : Type := {
  login_get : option fault;          (* driver.get(".../login") *)
  login_username : option fault;     (* wait.until(... "username") *)
  login_password : option fault;     (* wait.until(... "password") *)
  login_fill : option fault;         (* clear() and send_keys(...) on both fields *)
  login_search_box : option fault;   (* wait.until(... "input[placeholder='Search']") *)
  login_avatar : option fault;       (* wait.until(... "Me" avatar) *)
}.

Definition LOGIN_PAGE_ERROR : string :=
  "Login page did not load or LinkedIn changed login selectors".
Definition LOGIN_INCOMPLETE_ERROR : string :=
  "Login didn't complete â€” possible 2FA or blocking.".

Section Login.
Context {L : Type}.

Definition login_linkedin (env : LoginEnv) : M L bool :=
  call (login_get env);;
  try_except_timeout
    (call (login_username env);; call (login_password env))
    (raise (RuntimeError LOGIN_PAGE_ERROR));;
  call (login_fill env);;
  try_except_timeout
    (call (login_search_box env))
    (try_except_timeout
       (call (login_avatar env))
       (raise (RuntimeError LOGIN_INCOMPLETE_ERROR)));;
  sleep;;
  mret true.

End Login.

(** ** [detect_resume_worker] *)

(** A candidate is the dictionary [{"profile_url": href}]. *)
Abbreviation Profile := (gmap string string).

(** What one worker's browser answers. An anchor answers
    [get_attribute("href")] with [None], a string, or a fault. *)
Record WorkerEnv : Type := {
  w_driver : DriverEnv;
  w_login : LoginEnv;
  w_get : option fault;                           (* driver.get(url) *)
  w_page_source : reply string;                   (* driver.page_source *)
  w_anchors : reply (list (reply (option string))); (* find_elements(By.TAG_NAME, "a") *)
  w_quit : option fault;                          (* driver.quit() *)
}.

(** The local variables of the worker that outlive a raised exception. *)
Record WLocals : Type := {
  result : ProfileCheckResult;
  driver : option session;
}.

Definition set_driver (d : option session) (l : WLocals) : WLocals :=
  {| result := result l; driver := d |}.

Definition set_result (f : ProfileCheckResult → ProfileCheckResult)
    (l : WLocals) : WLocals :=
  {| result := f (result l); driver := driver l |}.

Definition set_resume_found (b : bool) (r : ProfileCheckResult) :=
  {| profile_url := profile_url r; resume_found := b;
     resume_links := resume_links r; error := error r |}.

Definition set_resume_links (ls : list string) (r : ProfileCheckResult) :=
  {| profile_url := profile_url r; resume_found := resume_found r;
     resume_links := ls; error := error r |}.

Definition set_error (e : option string) (r : ProfileCheckResult) :=
  {| profile_url := profile_url r; resume_found := resume_found r;
     resume_links := resume_links r; error := e |}.

(** [profile[key]] *)
Definition getitem {L} (d : Profile) (key : string) : M L string :=
  match d !! key with
  | Some v => mret v
  | None => raise (KeyError key)
  end.

(** The [for a in anchors] loop: [links] grows at its end; an anchor
    whose attribute cannot be read is skipped. *)
Definition is_resume_link (href : string) : bool :=
  PyStr.re_search FILE_REGEX href || PyStr.re_search KEYWORD_REGEX href.

Fixpoint collect_links (anchors : list (reply (option string)))
    (links : list string) : list string :=
  match anchors with
  | [] => links
  | a :: rest =>
      match a with
      | inl attr =>
          let href := default "" attr in
          if is_resume_link href then collect_links rest (links ++ [href])
          else collect_links rest links
      | inr _ => collect_links rest links
      end
  end.

(** [list(dict.fromkeys(links))]: a dictionary keeps its keys in the order
    of their first insertion. *)
Definition dict_fromkeys (links : list string) : list string :=
  fold_left (λ d k, if bool_decide (k ∈ d) then d else d ++ [k]) links [].

(** The dictionary and the variable set up before the [try]. *)
Definition worker_init (profile : Profile) : WLocals :=
  {| result := {| profile_url := profile !! "profile_url";
                  resume_found := false;
                  resume_links := [];
                  error := None |};
     driver := None |}.

(** Lines 252-276: the body of the [try]. *)
Definition worker_body (i : nat) (profile : Profile) (env : WorkerEnv)
    : M WLocals unit :=
  d ← create_driver (Worker i) (w_driver env);
  modify_locals (set_driver (Some d));;
  login_linkedin (w_login env);;
  sleep;;
  url ← getitem profile "profile_url";
  call (w_get env);;
  sleep;;
  page_html ← ask (w_page_source env);
  (if PyStr.re_search RESUME_REGEX page_html then
     anchors ← ask (w_anchors env);
     let links := collect_links anchors [] in
     let links := dict_fromkeys links in
     modify_locals (set_result (set_resume_found true));;
     modify_locals (set_result (set_resume_links links))
   else mret tt);;
  sleep.

(** Lines 280-285: the [finally] block. *)
Definition worker_cleanup (env : WorkerEnv) : M WLocals unit :=
  try_except
    (l ← get_locals;
     match driver l with
     | Some d => driver_quit d (w_quit env)
     | None => mret tt
     end)
    (λ _, mret tt).

Definition detect_resume_worker (i : nat) (profile : Profile)
    (env : WorkerEnv) : M WLocals ProfileCheckResult :=
  modify_locals (λ _, worker_init profile);;
  try_finally
    (try_except
       (worker_body i profile env)
       (λ e, modify_locals (set_result (set_error (Some (str_exn e))))))
    (worker_cleanup env);;
  l ← get_locals;
  mret (result l).

(** Running a worker on a thread of its own: its outcome and its events. *)
Definition empty_result : ProfileCheckResult :=
  {| profile_url := None; resume_found := false; resume_links := [];
     error := None |}.

Definition run_worker (i : nat) (profile : Profile) (env : WorkerEnv)
    : option ((ProfileCheckResult + exn) * list event) :=
  match detect_resume_worker i profile env
          ({| result := empty_result; driver := None |}, []) with
  | Some (r, (_, tr)) => Some (r, tr)
  | None => None
  end.

(** ** [search_and_collect_profiles] *)

(** One [li] of the result list: what its preferred anchor and its first
    anchor answer ([find_element] and then [get_attribute("href")]). *)
Record Row : Type := {
  row_primary : reply (option string);
  row_fallback : reply (option string);
}.

(** What the page answers during one turn of the scroll loop. *)
Record Pass : Type := {
  pass_lis : reply (list Row);     (* find_elements("ul[role='list'] > li") *)
  pass_scroll : option fault;      (* execute_script("window.scrollBy(...)") *)
  pass_new_height : reply Z;       (* execute_script("return ...scrollHeight") *)
}.

(** What the site answers to one search. *)
Record SearchEnv : Type := {
  input_xpath : option fault;        (* wait.until(... SEARCH_XPATH) *)
  input_placeholder : option fault;  (* wait.until(... placeholder) *)
  input_clear : option fault;        (* search_input.clear() *)
  input_send_query : option fault;   (* search_input.send_keys(query) *)
  input_send_return : option fault;  (* search_input.send_keys(Keys.RETURN) *)
  results_list : option fault;       (* wait.until(... SEARCH_RESULTS_UL_CSS) *)
  initial_height : reply Z;          (* the first scrollHeight *)
  pass : nat → Pass;                 (* the turns of the loop, from 0 *)
}.

(** The variables of the loop. *)
Record Collected : Type := {
  profiles : list Profile;
  seen : gset string;
  last_height : Z;
  scroll_tries : Z;
}.

(** [if href and href not in seen: profiles.append(...); seen.add(href)] *)
Definition add_href (attr : option string) (st : Collected) : Collected :=
  match attr with
  | Some href =>
      if negb (String.eqb href "") && bool_decide (href ∉ seen st) then
        {| profiles := profiles st ++ [ {[ "profile_url" := href ]} ];
           seen := seen st ∪ {[ href ]};
           last_height := last_height st;
           scroll_tries := scroll_tries st |}
      else st
  | None => st
  end.

(** The body of [for li in lis] after the cap test. *)
Definition scan_row (li : Row) (st : Collected) : Collected :=
  match row_primary li with
  | inl attr => add_href attr st
  | inr _ =>
      match row_fallback li with
      | inl attr => add_href attr st
      | inr _ => st
      end
  end.

(** [for li in lis: if len(profiles) >= max_profiles: break; ...] *)
Fixpoint scan_rows (max_profiles : Z) (lis : list Row) (st : Collected)
    : Collected :=
  match lis with
  | [] => st
  | li :: rest =>
      if Z.of_nat (length (profiles st)) >=? max_profiles then st
      else scan_rows max_profiles rest (scan_row li st)
  end.

(** The bookkeeping of the stall counter at the end of a turn. *)
Definition note_height (new_height : Z) (st : Collected) : Collected :=
  if new_height =? last_height st then
    {| profiles := profiles st; seen := seen st;
       last_height := last_height st;
       scroll_tries := scroll_tries st + 1 |}
  else
    {| profiles := profiles st; seen := seen st;
       last_height := new_height;
       scroll_tries := 0 |}.

(** [len(profiles) < max_profiles and scroll_tries < 30] *)
Definition loop_guard (max_profiles : Z) (st : Collected) : bool :=
  (Z.of_nat (length (profiles st)) <? max_profiles)
  && (scroll_tries st <? STALL_BOUND).

(** [lst[:n]] *)
Definition py_slice_to {A} (l : list A) (n : Z) : list A :=
  if 0 <=? n then take (Z.to_nat n) l
  else take (Z.to_nat (Z.of_nat (length l) + n)) l.

Section Collector.
Context {L : Type}.

(** One turn of the [while] loop. *)
Definition loop_body (max_profiles : Z) (p : Pass) (st : Collected)
    : M L Collected :=
  lis ← ask (pass_lis p);
  let st := scan_rows max_profiles lis st in
  call (pass_scroll p);;
  sleep;;
  new_height ← ask (pass_new_height p);
  mret (note_height new_height st).

(** The [while] loop from its [i]-th turn; a turn costs one unit of
    fuel, leaving the loop costs none. *)
Fixpoint scroll_loop (fuel : nat) (max_profiles : Z) (env : SearchEnv)
    (i : nat) (st : Collected) : M L Collected :=
  if loop_guard max_profiles st then
    match fuel with
    | O => diverge
    | S fuel' =>
        st' ← loop_body max_profiles (pass env i) st;
        scroll_loop fuel' max_profiles env (S i) st'
    end
  else mret st.

(** Lines 175-201: find the search box, submit the query, wait for the
    result list, read the first scroll height. *)
Definition submit_search (driver : session) (query : string)
    (env : SearchEnv) : M L Z :=
  try_except_timeout
    (call (input_xpath env))
    (try_except_timeout
       (call (input_placeholder env))
       (raise (RuntimeError "Search input not found")));;
  call (input_clear env);;
  call (input_send_query env);;
  emit (Typed driver query);;
  call (input_send_return env);;
  try_except_timeout (call (results_list env)) sleep;;
  ask (initial_height env).

Definition search_and_collect_profiles (fuel : nat) (driver : session)
    (query : string) (max_profiles : Z) (env : SearchEnv)
    : M L (list Profile) :=
  last_height ← submit_search driver query env;
  st ← scroll_loop fuel max_profiles env 0
         {| profiles := []; seen := ∅;
            last_height := last_height; scroll_tries := 0 |};
  mret (py_slice_to (profiles st) max_profiles).

End Collector.

(** ** The worker pool *)

(** The number of threads before the [i]-th that still have work: a
    thread runs only while fewer than [MAX_WORKERS] earlier ones do. *)
Definition busy_before {A} (idle : A → bool) (ts : list A) (i : nat) : nat :=
  length (filter (λ t, idle t = false) (take i ts)).

Definition is_nil {A} (l : list A) : bool :=
  match l with [] => true | _ => false end.

(** The events of the workers as the pool may interleave them: every
    entry of the schedule names the thread that makes the next step (a
    name that is not running is passed over); when the schedule is used
    up the remaining threads finish in submission order. *)
Fixpoint interleave (sched : list nat) (ts : list (list event))
    : list event :=
  match sched with
  | [] => concat ts
  | i :: sched' =>
      match ts !! i with
      | Some (e :: t') =>
          if bool_decide (busy_before is_nil ts i < MAX_WORKERS)%nat
          then e :: interleave sched' (<[i := t']> ts)
          else interleave sched' ts
      | _ => interleave sched' ts
      end
  end.

(** [as_completed(futures)]: the outcomes in the order in which the
    main thread receives them.  Every entry of the schedule names the
    future yielded next, any future not yet yielded (the ones that were
    done before the call come in no particular order); a yielded future
    leaves [None] in its slot, and when the schedule is used up the
    remaining ones come in submission order. *)
Fixpoint as_completed {A} (sched : list nat) (futures : list (option A))
    : list A :=
  match sched with
  | [] => omap id futures
  | i :: sched' =>
      match futures !! i with
      | Some (Some r) => r :: as_completed sched' (<[i := None]> futures)
      | _ => as_completed sched' futures
      end
  end.

(** ** [search_endpoint] *)

Record SearchRequest : Type := {
  query : string;
  max_profiles : option Z;   (* Optional[int] *)
}.

(** The dictionary returned on success. *)
Record Response : Type := {
  status : string;
  resp_query : string;
  profiles_checked : Z;
  resumes_found : Z;
  csv_path : string;
  results_preview : list ProfileCheckResult;
}.

(** Everything outside the program during one request. *)
Record Env : Type := {
  OUTPUT_DIR : string;
  utcnow : string;                  (* datetime.utcnow().strftime(...) *)
  primary_driver : DriverEnv;
  primary_login : LoginEnv;
  site : string → SearchEnv;        (* what the site shows for a typed query *)
  primary_quit : option fault;
  worker_env : nat → WorkerEnv;     (* the browser of the i-th worker *)
  event_sched : list nat;           (* how the pool interleaves the workers *)
  completion_sched : list nat;      (* the order in which futures complete *)
  csv_write : option fault;         (* df.to_csv(...) *)
}.

(** [x or d] on an optional integer. *)
Definition py_or (x : option Z) (d : Z) : Z :=
  match x with
  | None => d
  | Some n => if n =? 0 then d else n
  end.

(** The [max_profiles] the handler hands to the collector. *)
Definition effective_max_profiles (req : SearchRequest) : Z :=
  py_or (max_profiles req) MAX_PROFILES_DEFAULT.

Definition csv_filename (query timestamp : string) : string :=
  "results_" +:+ PyStr.replace_char " " "_" query +:+ "_" +:+ timestamp
  +:+ ".csv".

Definition NOT_FOUND_DETAIL : string := "No profiles found for the given query".

(** The [for future in as_completed(...)] loop. *)
Fixpoint gather {L} (outcomes : list (ProfileCheckResult + exn))
    (results : list ProfileCheckResult) (found_count : Z)
    : M L (list ProfileCheckResult * Z) :=
  match outcomes with
  | [] => mret (results, found_count)
  | o :: rest =>
      res ← lift o;
      gather rest (results ++ [res])
        (if resume_found res then found_count + 1 else found_count)
  end.

(** The [with ThreadPoolExecutor(...)] block: one worker per profile, in
    submission order; the block is left when every worker is done. *)
Definition pool_phase {L} (env : Env) (profiles : list Profile)
    : M L (list ProfileCheckResult * Z) :=
  match mapM id (imap (λ i p, run_worker i p (worker_env env i)) profiles) with
  | None => diverge
  | Some done =>
      emit_all (interleave (event_sched env) (snd <$> done));;
      gather (as_completed (completion_sched env) (Some ∘ fst <$> done)) [] 0
  end.

(** Lines 303-307: the sequential phase on the primary session. *)
Definition primary_phase (fuel : nat) (env : Env) (query : string)
    (max_profiles : Z) : M (option session) (list Profile) :=
  driver ← create_driver Primary (primary_driver env);
  modify_locals (λ _, Some driver);;
  login_linkedin (primary_login env);;
  search_and_collect_profiles fuel driver query max_profiles (site env query).

(** The local variable is [driver]. *)
Definition search_endpoint (fuel : nat) (env : Env) (req : SearchRequest)
    : M (option session) Response :=
  let query := PyStr.strip (query req) in
  let max_profiles := effective_max_profiles req in
  modify_locals (λ _, None);;
  try_finally
    (try_except
       (profiles ← primary_phase fuel env query max_profiles;
        (if is_nil profiles then raise (HTTPException 404 NOT_FOUND_DETAIL)
         else mret tt);;
        '(results, found_count) ← pool_phase env profiles;
        let csv_path :=
          PyStr.os_path_join (OUTPUT_DIR env) (csv_filename query (utcnow env)) in
        call (csv_write env);;
        emit (SavedCsv csv_path results);;
        mret {| status := "completed";
                resp_query := query;
                profiles_checked := Z.of_nat (length results);
                resumes_found := found_count;
                csv_path := csv_path;
                results_preview := take 10 results |})
       (λ e, if is_HTTPException e then raise e
             else raise (HTTPException 500 (str_exn e))))
    (l ← get_locals;
     match l with
     | Some driver => try_except (driver_quit driver (primary_quit env)) (λ _, mret tt)
     | None => mret tt
     end).

(** A request served from scratch: the answer and the events. *)
Definition serve (fuel : nat) (env : Env) (req : SearchRequest)
    : option ((Response + exn) * list event) :=
  match search_endpoint fuel env req (None, []) with
  | Some (r, (_, tr)) => Some (r, tr)
  | None => None
  end.

(** * Notions used by the statements *)

(** ** First-seen order

    The specification speaks of "deduplicating while preserving first-seen
    order".  [first_seen] is that operation, written after these words:
    keep an element, drop its later copies. *)

Section FirstSeenDef.
Context {A : Type} `{EqDecision A}.

Fixpoint first_seen (l : list A) : list A :=
  match l with
  | [] => []
  | x :: l' => x :: filter (λ y, y ≠ x) (first_seen l')
  end.

End FirstSeenDef.

(** ** Views of the worker, the collector, the pool and the handler *)

(** The links an anchor list offers, in page order: the attribute of
    every readable anchor, [""] where there is none. *)
Definition anchor_hrefs (anchors : list (reply (option string)))
    : list string :=
  omap (λ a : reply (option string),
          match a with inl attr => Some (default "" attr) | inr _ => None end)
       anchors.

(** The dictionary after a positive detection over [anchors]. *)
Definition matched_result (anchors : list (reply (option string)))
    (r : ProfileCheckResult) : ProfileCheckResult :=
  set_resume_links (dict_fromkeys (collect_links anchors []))
    (set_resume_found true r).

(** The dictionary and the events of the worker for the [i]-th candidate. *)
Definition worker_result (i : nat) (profile : Profile) (env : WorkerEnv)
    : ProfileCheckResult :=
  match run_worker i profile env with
  | Some (inl r, _) => r
  | _ => empty_result
  end.

Definition worker_trace (i : nat) (profile : Profile) (env : WorkerEnv)
    : list event :=
  match run_worker i profile env with
  | Some (_, tr) => tr
  | None => []
  end.

(** The candidate built for a link. *)
Definition candidate (href : string) : Profile := {[ "profile_url" := href ]}.

(** [get_attribute] answers that pass the test [if href]. *)
Definition nonempty (attr : option string) : option string :=
  match attr with
  | Some href => if String.eqb href "" then None else Some href
  | None => None
  end.

(** The link a result row offers, if any: that of its preferred anchor,
    and that of its first anchor only when the preferred one raised. *)
Definition row_href (li : Row) : option string :=
  match row_primary li with
  | inl attr => nonempty attr
  | inr _ =>
      match row_fallback li with
      | inl attr => nonempty attr
      | inr _ => None
      end
  end.

(** The links of one rendering of the result list, in page order. *)
Definition rendered (lis : list Row) : list string := omap row_href lis.

(** The links rendered during the first [k] turns of the loop, in the
    order in which the loop meets them. *)
Fixpoint feed (env : SearchEnv) (k : nat) : list string :=
  match k with
  | O => []
  | S k' =>
      feed env k' ++
      match pass_lis (pass env k') with
      | inl lis => rendered lis
      | inr _ => []
      end
  end.

(** The scroll height read before the [k]-th turn. *)
Definition height_at (env : SearchEnv) (k : nat) : reply Z :=
  match k with
  | O => initial_height env
  | S k' => pass_new_height (pass env k')
  end.

(** The loop variables hold the first [n] distinct links of [F]. *)
Definition collected (n : nat) (F : list string) (st : Collected) : Prop :=
  profiles st = candidate <$> take n (first_seen F)
  ∧ ∀ u, u ∈ seen st ↔ u ∈ take n (first_seen F).

(** One turn of the loop as a function of what the page answers. *)
Definition pass_step (max_profiles : Z) (p : Pass) (st : Collected)
    : Collected + fault :=
  match pass_lis p with
  | inr f => inr f
  | inl lis =>
      match pass_scroll p with
      | Some f => inr f
      | None =>
          match pass_new_height p with
          | inr f => inr f
          | inl h => inl (note_height h (scan_rows max_profiles lis st))
          end
      end
  end.

(** Every session the trace creates is quit later in the trace. *)
Fixpoint all_released (tr : list event) : Prop :=
  match tr with
  | [] => True
  | Created s :: rest => Quit s ∈ rest ∧ all_released rest
  | _ :: rest => all_released rest
  end.

Definition count_found (rs : list ProfileCheckResult) : Z :=
  Z.of_nat (length (filter (λ r, resume_found r = true) rs)).

(** The dictionaries of the workers in completion order, and their
    events as the pool interleaves them. *)
Definition pool_results (env : Env) (profiles : list Profile)
    : list ProfileCheckResult :=
  as_completed (completion_sched env)
    (Some <$> imap (λ i p, worker_result i p (worker_env env i)) profiles).

Definition pool_events (env : Env) (profiles : list Profile) : list event :=
  interleave (event_sched env)
    (imap (λ i p, worker_trace i p (worker_env env i)) profiles).

(** What the handler answers and leaves in the trace, given how its
    sequential phase ended. *)
Definition finish (env : Env) (query : string)
    (phase : (list Profile + exn) * (option session * list event))
    : (Response + exn) * list event :=
  let '(out, (l, tr)) := phase in
  let quit := match l with Some d => [Quit d] | None => [] end in
  match out with
  | inr e =>
      (inr (if is_HTTPException e then e else HTTPException 500 (str_exn e)),
       tr ++ quit)
  | inl [] => (inr (HTTPException 404 NOT_FOUND_DETAIL), tr ++ quit)
  | inl profiles =>
      let results := pool_results env profiles in
      let tr := tr ++ pool_events env profiles in
      match csv_write env with
      | Some f =>
          (inr (HTTPException 500 (str_exn (exn_of_fault f))), tr ++ quit)
      | None =>
          let path :=
            PyStr.os_path_join (OUTPUT_DIR env) (csv_filename query (utcnow env)) in
          (inl {| status := "completed";
                  resp_query := query;
                  profiles_checked := Z.of_nat (length results);
                  resumes_found := count_found results;
                  csv_path := path;
                  results_preview := take 10 results |},
           tr ++ [SavedCsv path results] ++ quit)
      end
  end.

(** ** Concrete browsers and requests for the scenarios *)

(** A machine on which the browser starts and the login goes through. *)
Definition ok_driver : DriverEnv :=
  {| chromedriver_exists := true; chrome_start := None;
     cdp_tweak := None; manager_install := None |}.

Definition ok_login : LoginEnv :=
  {| login_get := None; login_username := None; login_password := None;
     login_fill := None; login_search_box := None; login_avatar := None |}.

(** A profile page that mentions a resume and links to two documents,
    one of them twice, among other anchors. *)
Definition resume_page : WorkerEnv :=
  {| w_driver := ok_driver; w_login := ok_login; w_get := None;
     w_page_source := inl "<a href='cv.pdf'>My Resume</a>";
     w_anchors := inl [inl (Some "https://x.test/cv.pdf");
                       inl (Some "https://x.test/about");
                       inr (DriverFault "stale element");
                       inl None;
                       inl (Some "https://x.test/Resume");
                       inl (Some "https://x.test/cv.pdf")];
     w_quit := None |}.

(** A worker whose [driver.get(profile_url)] raises. *)
Definition broken_navigation : WorkerEnv :=
  {| w_driver := ok_driver; w_login := ok_login;
     w_get := Some (DriverFault "net::ERR_CONNECTION_RESET");
     w_page_source := inl "<a href='cv.pdf'>My Resume</a>";
     w_anchors := inl [inl (Some "https://x.test/cv.pdf")];
     w_quit := None |}.

(** A result row whose preferred anchor carries [href]. *)
Definition link_row (href : string) : Row :=
  {| row_primary := inl (Some href);
     row_fallback := inr (DriverFault "no such element") |}.

(** A result page that renders [hrefs] at every turn and never grows. *)
Definition still_page (hrefs : list string) : SearchEnv :=
  {| input_xpath := None; input_placeholder := None; input_clear := None;
     input_send_query := None; input_send_return := None;
     results_list := None; initial_height := inl 1000;
     pass := λ _, {| pass_lis := inl (link_row <$> hrefs);
                     pass_scroll := None;
                     pass_new_height := inl 1000 |} |}.

(** A result page that shows no row and is a little higher after every
    scroll. *)
Definition endless_page : SearchEnv :=
  {| input_xpath := None; input_placeholder := None; input_clear := None;
     input_send_query := None; input_send_return := None;
     results_list := None; initial_height := inl 1000;
     pass := λ i, {| pass_lis := inl [];
                     pass_scroll := None;
                     pass_new_height := inl (1001 + Z.of_nat i) |} |}.

(** A request environment in which everything works but the navigation
    of the worker for the second candidate. *)
Definition demo_env (hrefs : list string) : Env :=
  {| OUTPUT_DIR := "/app/output"; utcnow := "20240101T000000Z";
     primary_driver := ok_driver; primary_login := ok_login;
     site := λ _, still_page hrefs;
     primary_quit := None;
     worker_env := λ i, if Nat.eqb i 1 then broken_navigation else resume_page;
     event_sched := [2; 0; 1; 1; 0]%nat;
     completion_sched := [2; 0]%nat;
     csv_write := None |}.

(** The five candidates of the stalled page of the scenario. *)
Definition five_links : list string :=
  ["https://x.test/in/a"; "https://x.test/in/b"; "https://x.test/in/c";
   "https://x.test/in/d"; "https://x.test/in/e"].

(** The request of the scenarios. *)
Definition demo_request : SearchRequest :=
  {| query := "Software Engineer"; max_profiles := Some 3 |}.

Definition demo_path : string :=
  "/app/output/results_Software_Engineer_20240101T000000Z.csv".

Definition demo_found (href : string) : ProfileCheckResult :=
  {| profile_url := Some href; resume_found := true;
     resume_links := ["https://x.test/cv.pdf"; "https://x.test/Resume"];
     error := None |}.

Definition demo_failed (href : string) : ProfileCheckResult :=
  {| profile_url := Some href; resume_found := false; resume_links := [];
     error := Some "net::ERR_CONNECTION_RESET" |}.

(** A request that asks for a negative number of profiles. *)
Definition negative_request : SearchRequest :=
  {| query := "Software Engineer"; max_profiles := Some (-5) |}.

(** A machine on which Chrome does not start. *)
Definition no_browser_env : Env :=
  {| OUTPUT_DIR := "/app/output"; utcnow := "20240101T000000Z";
     primary_driver :=
       {| chromedriver_exists := true;
          chrome_start := Some (DriverFault "session not created");
          cdp_tweak := None; manager_install := None |};
     primary_login := ok_login;
     site := λ _, still_page [];
     primary_quit := None;
     worker_env := λ _, resume_page;
     event_sched := []; completion_sched := [];
     csv_write := None |}.

(** A request whose query is nothing but white space. *)
Definition blank_request : SearchRequest :=
  {| query := "   "; max_profiles := Some 3 |}.

(** ** Conditions on the environment used by the further properties *)

Definition is_timeout (o : option fault) : bool :=
  match o with Some (Timeout _) => true | _ => false end.

Definition no_fault (o : option fault) : bool :=
  match o with None => true | Some _ => false end.

(** The browser starts: Chrome comes up, and a chromedriver is at hand,
    on the system or through the driver manager. *)
Definition driver_starts (env : DriverEnv) : bool :=
  no_fault (chrome_start env)
  && (chromedriver_exists env || no_fault (manager_install env)).

(** The login goes through: every step answers, the post-login signal
    being the search box or, when that one times out, the avatar. *)
Definition login_succeeds (env : LoginEnv) : bool :=
  no_fault (login_get env) && no_fault (login_username env)
  && no_fault (login_password env) && no_fault (login_fill env)
  && (no_fault (login_search_box env)
      || (is_timeout (login_search_box env) && no_fault (login_avatar env))).

(** [s.lower()] on ASCII text. *)
Fixpoint lower_str (s : string) : string :=
  match s with
  | EmptyString => EmptyString
  | String c s' => String (PyStr.lower c) (lower_str s')
  end.


(** Two logins: one where only the avatar shows up after the
    credentials, one where nothing does. *)
Definition avatar_login : LoginEnv :=
  {| login_get := None; login_username := None; login_password := None;
     login_fill := None; login_search_box := Some (Timeout "no search box");
     login_avatar := None |}.

Definition blocked_login : LoginEnv :=
  {| login_get := None; login_username := None; login_password := None;
     login_fill := None; login_search_box := Some (Timeout "no search box");
     login_avatar := Some (Timeout "no avatar") |}.

(** The same search page with another answer of one locator. *)
Definition with_input_xpath (o : option fault) (env : SearchEnv) : SearchEnv :=
  {| input_xpath := o; input_placeholder := input_placeholder env;
     input_clear := input_clear env; input_send_query := input_send_query env;
     input_send_return := input_send_return env;
     results_list := results_list env; initial_height := initial_height env;
     pass := pass env |}.

Definition with_results_list (o : option fault) (env : SearchEnv) : SearchEnv :=
  {| input_xpath := input_xpath env; input_placeholder := input_placeholder env;
     input_clear := input_clear env; input_send_query := input_send_query env;
     input_send_return := input_send_return env;
     results_list := o; initial_height := initial_height env;
     pass := pass env |}.

(** The stall counter counts the last height reads, all equal to
    [last_height], before turn [i]. *)
Definition stalled_for (env : SearchEnv) (i : nat) (st : Collected) : Prop :=
  0 ≤ scroll_tries st ≤ Z.of_nat i
  ∧ ∀ j : nat, Z.of_nat j ≤ scroll_tries st →
      height_at env (i - j) = inl (last_height st).

(** A page on which neither locator of the search box answers in time,
    and one whose result list is late. *)
Definition no_search_box : SearchEnv :=
  {| input_xpath := Some (Timeout "xpath");
     input_placeholder := Some (Timeout "placeholder");
     input_clear := None; input_send_query := None;
     input_send_return := None; results_list := None;
     initial_height := inl 1000; pass := pass (still_page []) |}.

Definition late_list_page : SearchEnv :=
  with_results_list (Some (Timeout "no list yet")) (still_page five_links).

(** The same worker browser with another answer of [driver.quit()]. *)
Definition with_w_quit (o : option fault) (env : WorkerEnv) : WorkerEnv :=
  {| w_driver := w_driver env; w_login := w_login env; w_get := w_get env;
     w_page_source := w_page_source env; w_anchors := w_anchors env;
     w_quit := o |}.

(** A profile page that says "cv" but links to no document. *)
Definition mention_page : WorkerEnv :=
  {| w_driver := ok_driver; w_login := ok_login; w_get := None;
     w_page_source := inl "<p>Send me your CV</p>";
     w_anchors := inl [inl (Some "https://x.test/about"); inl None];
     w_quit := None |}.

(** The same request environment with another answer of the primary
    session's [quit], or another completion order of the futures. *)
Definition with_primary_quit (o : option fault) (env : Env) : Env :=
  {| OUTPUT_DIR := OUTPUT_DIR env; utcnow := utcnow env;
     primary_driver := primary_driver env; primary_login := primary_login env;
     site := site env; primary_quit := o; worker_env := worker_env env;
     event_sched := event_sched env; completion_sched := completion_sched env;
     csv_write := csv_write env |}.

Definition with_completion_sched (sched : list nat) (env : Env) : Env :=
  {| OUTPUT_DIR := OUTPUT_DIR env; utcnow := utcnow env;
     primary_driver := primary_driver env; primary_login := primary_login env;
     site := site env; primary_quit := primary_quit env;
     worker_env := worker_env env;
     event_sched := event_sched env; completion_sched := sched;
     csv_write := csv_write env |}.

(** An event of the session of the [i]-th worker. *)
Definition worker_event (i : nat) (e : event) : Prop :=
  e = Created (Worker i) ∨ e = Quit (Worker i).

(** A request environment whose primary login is blocked. *)
Definition blocked_env : Env :=
  {| OUTPUT_DIR := "/app/output"; utcnow := "20240101T000000Z";
     primary_driver := ok_driver; primary_login := blocked_login;
     site := λ _, still_page five_links;
     primary_quit := None;
     worker_env := λ _, resume_page;
     event_sched := []; completion_sched := [];
     csv_write := None |}.

(** The search can be submitted: the search box is found, by the
    preferred locator or, when that one times out, by the other one, and
    it can be cleared and typed into. *)
Definition search_submits (env : SearchEnv) : bool :=
  (no_fault (input_xpath env)
   || (is_timeout (input_xpath env) && no_fault (input_placeholder env)))
  && no_fault (input_clear env) && no_fault (input_send_query env).

(** * Facts *)

(** ** Strings *)

Module PyStrFacts.
Import PyStr.

Lemma append_String c a b : String c a +:+ b = String c (a +:+ b).
Proof. reflexivity. Qed.

Lemma append_empty a : "" +:+ a = a.
Proof. reflexivity. Qed.

Lemma append_empty_r a : a +:+ "" = a.
Proof. induction a as [|c a IH]; [done|]. by rewrite append_String, IH. Qed.

Lemma append_assoc a b c : (a +:+ b) +:+ c = a +:+ b +:+ c.
Proof.
  induction a as [|d a IH]; [done|]. rewrite !append_String. by rewrite IH.
Qed.

Lemma append_length a b :
  String.length (a +:+ b) = (String.length a + String.length b)%nat.
Proof.
  induction a as [|c a IH]; [done|]. rewrite append_String. simpl. by rewrite IH.
Qed.

(** The white-space character cut by [head_space]. *)
Lemma head_space_Some s r :
  head_space s = Some r →
  ∃ w, s = w +:+ r ∧ w ≠ "" ∧ ∀ x, head_space (w +:+ x) = Some x.
Proof.
  destruct s as [|c1 [|c2 [|c3 s3]]]; simpl; try done.
  - destruct (is_space1 c1) eqn:E1; [|done]. intros [= <-].
    exists (String c1 ""). split; [done|]. split; [done|].
    intros x. rewrite append_String, append_empty. simpl. by rewrite E1.
  - destruct (is_space1 c1) eqn:E1.
    { intros [= <-]. exists (String c1 ""). split; [done|]. split; [done|].
      intros x. rewrite append_String, append_empty. simpl. by rewrite E1. }
    destruct (is_space2 c1 c2) eqn:E2; [|done]. intros [= <-].
    exists (String c1 (String c2 "")). split; [done|]. split; [done|].
    intros x. rewrite !append_String, append_empty. simpl. by rewrite E1, E2.
  - destruct (is_space1 c1) eqn:E1.
    { intros [= <-]. exists (String c1 ""). split; [done|]. split; [done|].
      intros x. rewrite append_String, append_empty. simpl. by rewrite E1. }
    destruct (is_space2 c1 c2) eqn:E2.
    { intros [= <-]. exists (String c1 (String c2 "")).
      split; [done|]. split; [done|].
      intros x. rewrite !append_String, append_empty. simpl. by rewrite E1, E2. }
    destruct (is_space3 c1 c2 c3) eqn:E3; [|done]. intros [= <-].
    exists (String c1 (String c2 (String c3 ""))).
    split; [done|]. split; [done|].
    intros x. rewrite !append_String, append_empty. simpl.
    by rewrite E1, E2, E3.
Qed.

Lemma lstrip_head s :
  lstrip s = match head_space s with Some r => lstrip r | None => s end.
Proof.
  destruct s as [|c1 [|c2 [|c3 s3]]]; simpl; try done;
    repeat (case_match; try done).
Qed.

Lemma all_space_head s :
  all_space s
  = match s with
    | EmptyString => true
    | _ => match head_space s with Some r => all_space r | None => false end
    end.
Proof.
  destruct s as [|c1 [|c2 [|c3 s3]]]; simpl; try done;
    destruct (is_space1 c1); try done;
    try (destruct (is_space2 c1 c2); try done);
    try (destruct (is_space3 c1 c2 c3); done).
Qed.

Lemma head_space_shorter s r :
  head_space s = Some r → (String.length r < String.length s)%nat.
Proof.
  intros (w & -> & Hw & _)%head_space_Some. rewrite append_length.
  destruct w; [done|]. simpl. lia.
Qed.

(** Induction along the white-space characters at the start. *)
Lemma head_space_ind (P : string → Prop) :
  (∀ s, (∀ r, head_space s = Some r → P r) → P s) → ∀ s, P s.
Proof.
  intros Hstep s.
  assert (∀ n s, (String.length s < n)%nat → P s) as H;
    [|apply (H (S (String.length s))); lia].
  clear s. induction n as [|n IH]; intros s Hlen; [lia|].
  apply Hstep. intros r Hr. apply IH.
  apply head_space_shorter in Hr. lia.
Qed.

Lemma all_space_append a b :
  all_space a = true → all_space (a +:+ b) = all_space b.
Proof.
  induction a as [a IH] using head_space_ind. rewrite (all_space_head a).
  destruct a as [|c a]; [done|].
  destruct (head_space (String c a)) as [r|] eqn:Hr; [|done]. intros Hall.
  pose proof Hr as (w & Hs & Hw & Hx)%head_space_Some.
  rewrite Hs, append_assoc, all_space_head, Hx.
  destruct w; [done|]. rewrite append_String. by apply IH.
Qed.

Lemma lstrip_split s : ∃ pre, s = pre +:+ lstrip s ∧ all_space pre = true.
Proof.
  induction s as [s IH] using head_space_ind. rewrite lstrip_head.
  destruct (head_space s) as [r|] eqn:Hr; [|by exists ""].
  destruct (IH r eq_refl) as (pre & E & Hpre).
  pose proof Hr as (w & -> & Hw & Hx)%head_space_Some.
  exists (w +:+ pre). split.
  - by rewrite append_assoc, <- E.
  - rewrite all_space_head, Hx, Hpre. destruct w; [done|].
    by rewrite append_String.
Qed.

Lemma lstrip_no_lead s : head_space (lstrip s) = None.
Proof.
  induction s as [s IH] using head_space_ind. rewrite lstrip_head.
  destruct (head_space s) as [r|] eqn:Hr; [by apply IH|done].
Qed.

Lemma lstrip_fix s : head_space s = None → lstrip s = s.
Proof. intros H. by rewrite lstrip_head, H. Qed.

Lemma lstrip_all_space s : all_space s = true → lstrip s = "".
Proof.
  induction s as [s IH] using head_space_ind.
  rewrite all_space_head, lstrip_head. destruct s as [|c s]; [done|].
  destruct (head_space (String c s)) as [r|]; [by apply IH|done].
Qed.

Lemma rstrip_split s : ∃ post, s = rstrip s +:+ post ∧ all_space post = true.
Proof.
  induction s as [|c s (post & E & Hpost)]; [by exists ""|].
  change (rstrip (String c s))
    with (if all_space (String c s) then "" else String c (rstrip s)).
  destruct (all_space (String c s)) eqn:Hall.
  - by exists (String c s).
  - exists post. by rewrite append_String, <- E.
Qed.

Lemma rstrip_unfold c s :
  rstrip (String c s) = if all_space (String c s) then "" else String c (rstrip s).
Proof. reflexivity. Qed.

Lemma append_nil_inv a b : a +:+ b = "" → a = "" ∧ b = "".
Proof.
  destruct a.
  - rewrite append_empty. by intros ->.
  - by rewrite append_String.
Qed.

(** No white space is left at the end of [rstrip s]. *)
Lemma rstrip_no_trail s a b :
  rstrip s = a +:+ b → all_space b = true → b = "".
Proof.
  revert a. induction s as [|c s IH]; intros a.
  - simpl. intros H. symmetry in H. by apply append_nil_inv in H as [_ ->].
  - rewrite rstrip_unfold. destruct (all_space (String c s)) eqn:Hall.
    + intros H. symmetry in H. by apply append_nil_inv in H as [_ ->].
    + destruct a as [|c' a].
      * rewrite append_empty. intros <- Hb. exfalso.
        destruct (rstrip_split s) as (post & E & Hpost).
        rewrite E in Hall at 1.
        rewrite <- append_String, (all_space_append _ _ Hb) in Hall.
        congruence.
      * rewrite append_String. intros [= <- E]. by apply (IH a).
Qed.

Lemma rstrip_fix s :
  (∀ a b, s = a +:+ b → all_space b = true → b = "") → rstrip s = s.
Proof.
  induction s as [|c s IH]; [done|]. intros Hs. rewrite rstrip_unfold.
  destruct (all_space (String c s)) eqn:Hall.
  - by specialize (Hs "" (String c s) eq_refl Hall).
  - f_equal. apply IH. intros a b -> Hb.
    by apply (Hs (String c a) b).
Qed.

Lemma rstrip_keeps_lead s : head_space s = None → head_space (rstrip s) = None.
Proof.
  intros Hs. destruct (head_space (rstrip s)) as [r|] eqn:Hr; [|done].
  apply head_space_Some in Hr as (w & E & _ & Hx).
  destruct (rstrip_split s) as (post & Es & _).
  rewrite Es, E, append_assoc, Hx in Hs. done.
Qed.

Lemma strip_split s :
  ∃ pre post, s = pre +:+ strip s +:+ post
    ∧ all_space pre = true ∧ all_space post = true.
Proof.
  destruct (lstrip_split s) as [pre [E1 H1]].
  destruct (rstrip_split (lstrip s)) as [post [E2 H2]].
  exists pre, post. unfold strip. by rewrite <- E2.
Qed.

(** [strip s] neither starts nor ends with white space. *)
Lemma strip_clean s :
  head_space (strip s) = None
  ∧ ∀ a b, strip s = a +:+ b → all_space b = true → b = "".
Proof.
  unfold strip. split.
  - apply rstrip_keeps_lead, lstrip_no_lead.
  - apply rstrip_no_trail.
Qed.

Lemma strip_idemp s : strip (strip s) = strip s.
Proof.
  destruct (strip_clean s) as [H1 H2].
  unfold strip at 1. by rewrite (lstrip_fix _ H1), (rstrip_fix _ H2).
Qed.

Lemma strip_all_space s : all_space s = true → strip s = "".
Proof. intros H. unfold strip. by rewrite (lstrip_all_space _ H). Qed.

Lemma re_search_app a b s :
  re_search (a ++ b) s = re_search a s || re_search b s.
Proof.
  induction s as [|c s IH]; simpl; unfold alt_here; rewrite existsb_app.
  - by rewrite !orb_false_r.
  - rewrite IH. destruct (existsb _ a), (existsb _ b), (re_search a s); done.
Qed.

End PyStrFacts.

(** ** First-seen order *)

Section FirstSeen.
Context {A : Type} `{EqDecision A}.

Lemma filter_all (P : A → Prop) `{∀ x, Decision (P x)} (l : list A) :
  (∀ x, x ∈ l → P x) → filter P l = l.
Proof.
  induction l as [|a l IH]; intros HP; [done|].
  rewrite filter_cons_True by (apply HP; left).
  f_equal. apply IH. intros x Hx. apply HP. by right.
Qed.

Lemma elem_of_first_seen (x : A) (l : list A) : x ∈ first_seen l ↔ x ∈ l.
Proof.
  induction l as [|a l IH]; simpl; [done|].
  rewrite !elem_of_cons, list_elem_of_filter, IH.
  destruct (decide (x = a)); tauto.
Qed.

Lemma NoDup_first_seen (l : list A) : NoDup (first_seen l).
Proof.
  induction l as [|a l IH]; simpl; constructor.
  - rewrite list_elem_of_filter. tauto.
  - by apply NoDup_filter.
Qed.

Lemma first_seen_app (l k : list A) :
  first_seen (l ++ k) = first_seen l ++ filter (λ y, y ∉ l) (first_seen k).
Proof.
  induction l as [|a l IH]; simpl.
  - symmetry. apply filter_all. intros x _. apply not_elem_of_nil.
  - f_equal. rewrite IH, filter_app. f_equal.
    rewrite list_filter_filter. apply list_filter_iff.
    intros x. rewrite not_elem_of_cons. naive_solver.
Qed.

Lemma first_seen_snoc (l : list A) (x : A) :
  first_seen (l ++ [x]) =
    if bool_decide (x ∈ first_seen l) then first_seen l
    else first_seen l ++ [x].
Proof.
  rewrite first_seen_app. simpl. rewrite filter_nil.
  case_bool_decide as H; rewrite elem_of_first_seen in H.
  - rewrite filter_cons_False, filter_nil by naive_solver.
    by rewrite app_nil_r.
  - by rewrite filter_cons_True, filter_nil.
Qed.

Lemma first_seen_NoDup_id (l : list A) : NoDup l → first_seen l = l.
Proof.
  induction 1 as [|a l Ha Hl IH]; simpl; [done|].
  rewrite IH. f_equal. apply filter_all.
  intros x Hx ->. done.
Qed.

(** Positions in a filtered list come from positions of the list, in
    the same order. *)
Lemma filter_lookup_order (P : A → Prop) `{∀ x, Decision (P x)}
    (l : list A) i j x y :
  filter P l !! i = Some x → filter P l !! j = Some y → (i < j)%nat →
  ∃ i' j', l !! i' = Some x ∧ l !! j' = Some y ∧ (i' < j')%nat.
Proof.
  revert i j. induction l as [|a l IH]; intros i j; [done|].
  rewrite filter_cons. case_decide as Ha.
  - destruct i as [|i], j as [|j]; simpl; try lia.
    + intros [= ->] Hy _.
      apply list_elem_of_lookup_2, list_elem_of_filter in Hy as [_ Hy].
      apply list_elem_of_lookup_1 in Hy as [j' Hj'].
      exists 0%nat, (S j'). simpl. repeat split; [done|lia].
    + intros Hx Hy Hij.
      destruct (IH i j Hx Hy) as (i' & j' & ? & ? & ?); [lia|].
      exists (S i'), (S j'). simpl. repeat split; [done..|lia].
  - intros Hx Hy Hij.
    destruct (IH i j Hx Hy Hij) as (i' & j' & ? & ? & ?).
    exists (S i'), (S j'). simpl. repeat split; [done..|lia].
Qed.

(** The order of [first_seen l] is the order of first occurrence in
    [l]: an element that comes earlier in [first_seen l] occurs in [l]
    before every occurrence of one that comes later. *)
Lemma first_seen_order (l : list A) i j x y :
  first_seen l !! i = Some x → first_seen l !! j = Some y → (i < j)%nat →
  ∃ n, l !! n = Some x ∧ ∀ m, l !! m = Some y → (n < m)%nat.
Proof.
  revert i j. induction l as [|a l IH]; intros i j; [done|]. simpl.
  destruct i as [|i], j as [|j]; simpl; try lia.
  - intros [= ->] Hy _. exists 0%nat. split; [done|].
    apply list_elem_of_lookup_2, list_elem_of_filter in Hy as [Hne _].
    intros [|m]; simpl; [naive_solver|lia].
  - intros Hx Hy Hij.
    assert (y ≠ a) as Hne
      by (apply list_elem_of_lookup_2, list_elem_of_filter in Hy; tauto).
    destruct (filter_lookup_order _ _ _ _ _ _ Hx Hy) as (i' & j' & Hi' & Hj' & ?);
      [lia|].
    destruct (IH _ _ Hi' Hj') as (n & Hn & Hafter); [done|].
    exists (S n). split; [done|].
    intros [|m]; simpl; [naive_solver|].
    intros Hm. apply Hafter in Hm. lia.
Qed.

End FirstSeen.

(** ** [dict.fromkeys] and the link loop *)

Section Links.

Lemma dict_fromkeys_from (seen_keys links : list string) :
  fold_left (λ d k, if bool_decide (k ∈ d) then d else d ++ [k]) links
    (first_seen seen_keys)
  = first_seen (seen_keys ++ links).
Proof.
  revert seen_keys. induction links as [|k links IH]; intros seen_keys; simpl.
  - by rewrite app_nil_r.
  - rewrite <- first_seen_snoc, IH. by rewrite <- app_assoc.
Qed.

(** The source's dedup is the specification's. *)
Lemma dict_fromkeys_first_seen links : dict_fromkeys links = first_seen links.
Proof. apply (dict_fromkeys_from []). Qed.

Lemma collect_links_filter anchors links :
  collect_links anchors links
  = links ++ filter (λ h, is_resume_link h = true) (anchor_hrefs anchors).
Proof.
  revert links. induction anchors as [|[attr|f] rest IH]; intros links; simpl.
  - by rewrite app_nil_r.
  - unfold anchor_hrefs. simpl. fold (anchor_hrefs rest).
    rewrite filter_cons. destruct (is_resume_link (default "" attr)) eqn:E.
    + rewrite IH, decide_True by done. by rewrite <- app_assoc.
    + rewrite IH, decide_False by done. done.
  - apply IH.
Qed.

Lemma is_resume_link_regex href :
  is_resume_link href = PyStr.re_search RESUME_REGEX href.
Proof. unfold RESUME_REGEX. by rewrite PyStrFacts.re_search_app. Qed.

End Links.

(** ** Running the monad *)

Ltac munfold :=
  unfold mbind, M_bind, mret, M_ret, bind, ret, raise, try_except_timeout,
    try_except, try_finally, call, ask, lift, sleep, emit, emit_all,
    modify_locals, get_locals, diverge in *.

Section Runs.
Context {L : Type}.
Implicit Types st : L * list event.

Lemma create_driver_run s env st :
  create_driver s env st = Some (inl s, (st.1, st.2 ++ [Created s]))
  ∨ ∃ e, create_driver s env st = Some (inr e, st)
         ∧ is_HTTPException e = false.
Proof.
  unfold create_driver, webdriver_Chrome. munfold. destruct st as [l tr].
  destruct env as [[] [[]|] [[]|] [[]|]]; simpl; eauto.
Qed.

Lemma login_linkedin_run env st :
  login_linkedin env st = Some (inl true, st)
  ∨ ∃ e, login_linkedin env st = Some (inr e, st)
         ∧ is_HTTPException e = false.
Proof.
  unfold login_linkedin. munfold. destruct st as [l tr].
  destruct env as [g u p f sb av]. simpl.
  destruct g as [[]|]; simpl; eauto;
  destruct u as [[]|]; simpl; eauto;
  destruct p as [[]|]; simpl; eauto;
  destruct f as [[]|]; simpl; eauto;
  destruct sb as [[]|]; simpl; eauto;
  destruct av as [[]|]; simpl; eauto.
Qed.

End Runs.

(** ** The worker *)

Section WorkerFacts.
Variables (i : nat) (profile : Profile) (env : WorkerEnv).

(** The body either fails to start a browser and changes nothing, or
    starts one, records it in [driver], and leaves the dictionary
    untouched unless it reaches the two assignments of lines 273-274. *)
Lemma worker_body_run (l : WLocals) (tr : list event) :
  (∃ e, worker_body i profile env (l, tr) = Some (inr e, (l, tr)))
  ∨ (∃ out r',
       worker_body i profile env (l, tr)
       = Some (out, ({| result := r'; driver := Some (Worker i) |},
                     tr ++ [Created (Worker i)]))
       ∧ match out with
         | inr _ => r' = result l
         | inl _ =>
             r' = result l
             ∨ ∃ anchors, w_anchors env = inl anchors
                          ∧ r' = matched_result anchors (result l)
         end).
Proof.
  unfold worker_body. munfold.
  destruct (create_driver_run (Worker i) (w_driver env) (l, tr))
    as [-> | (e & -> & _)]; [right|left; eauto].
  simpl.
  destruct (login_linkedin_run (w_login env)
              (set_driver (Some (Worker i)) l, tr ++ [Created (Worker i)]))
    as [-> | (e & -> & _)]; [|by eexists (inr e), _].
  unfold getitem. munfold.
  destruct (profile !! "profile_url"); [|by eexists (inr _), _].
  destruct (w_get env); simpl; [by eexists (inr _), _|].
  destruct (w_page_source env) as [html|]; simpl; [|by eexists (inr _), _].
  destruct (PyStr.re_search RESUME_REGEX html); simpl.
  - destruct (w_anchors env) as [anchors|]; simpl; [|by eexists (inr _), _].
    eexists (inl tt), _. split; [done|]. right. by exists anchors.
  - eexists (inl tt), _. split; [done|]. by left.
Qed.

(** What [detect_resume_worker] makes of the outcome of its body. *)
Lemma run_worker_of_body out l' tr' :
  worker_body i profile env (worker_init profile, []) = Some (out, (l', tr')) →
  run_worker i profile env
  = Some (inl (match out with
               | inl _ => result l'
               | inr e => set_error (Some (str_exn e)) (result l')
               end),
          tr' ++ match driver l' with Some d => [Quit d] | None => [] end).
Proof.
  intros Hbody.
  unfold run_worker, detect_resume_worker, worker_cleanup, driver_quit.
  munfold. simpl. rewrite Hbody.
  destruct out as [[]|e]; simpl;
    destruct (driver l'); simpl; try destruct (w_quit env); simpl;
    by rewrite ?app_nil_r.
Qed.

Lemma worker_body_total (st : WLocals * list event) :
  ∃ out st', worker_body i profile env st = Some (out, st').
Proof.
  destruct st as [l tr].
  destruct (worker_body_run l tr) as [[e ->] | (out & r' & -> & _)]; eauto.
Qed.

End WorkerFacts.

(** The worker always returns its dictionary; it starts at most one
    session, its own, and quits it. *)
Lemma run_worker_returns i profile env :
  run_worker i profile env
  = Some (inl (worker_result i profile env), worker_trace i profile env)
  ∧ (worker_trace i profile env = []
     ∨ worker_trace i profile env = [Created (Worker i); Quit (Worker i)]).
Proof.
  unfold worker_result, worker_trace.
  destruct (worker_body_run i profile env (worker_init profile) [])
    as [[e H] | (out & r' & H & _)];
    rewrite (run_worker_of_body _ _ _ _ _ _ H); simpl; auto.
Qed.

(** ** The collector *)

Section CollectorFacts.

Lemma scan_row_href li st :
  scan_row li st =
    match row_href li with
    | Some href =>
        if bool_decide (href ∈ seen st) then st
        else {| profiles := profiles st ++ [candidate href];
                seen := seen st ∪ {[ href ]};
                last_height := last_height st;
                scroll_tries := scroll_tries st |}
    | None => st
    end.
Proof.
  unfold scan_row, row_href, add_href, nonempty.
  destruct (row_primary li) as [[h|]|]; [| done |].
  - destruct (String.eqb h ""); simpl; [done|].
    repeat case_bool_decide; done.
  - destruct (row_fallback li) as [[h|]|]; [| done..].
    destruct (String.eqb h ""); simpl; [done|].
    repeat case_bool_decide; done.
Qed.

Lemma scan_rows_frame max lis st :
  last_height (scan_rows max lis st) = last_height st
  ∧ scroll_tries (scan_rows max lis st) = scroll_tries st.
Proof.
  revert st. induction lis as [|li rest IH]; intros st; simpl; [done|].
  case_match; [done|].
  destruct (IH (scan_row li st)) as [-> ->].
  rewrite scan_row_href. repeat case_match; done.
Qed.

Lemma collected_step n F st href :
  collected n F st → (length (profiles st) < n)%nat →
  collected n (F ++ [href])
    (if bool_decide (href ∈ seen st) then st
     else {| profiles := profiles st ++ [candidate href];
             seen := seen st ∪ {[ href ]};
             last_height := last_height st;
             scroll_tries := scroll_tries st |}).
Proof.
  intros [Hp Hs] Hlen.
  rewrite Hp, length_fmap, length_take in Hlen.
  assert (take n (first_seen F) = first_seen F) as Hall
    by (apply take_ge; lia).
  rewrite Hall in Hp, Hs. unfold collected.
  rewrite first_seen_snoc.
  destruct (decide (href ∈ first_seen F)) as [Hin|Hin].
  - rewrite !bool_decide_true by (done || by apply Hs). by rewrite Hall.
  - rewrite !bool_decide_false by (done || by rewrite Hs).
    rewrite take_ge by (rewrite length_app; simpl; lia).
    simpl. split.
    + by rewrite Hp, fmap_app.
    + intros u. rewrite elem_of_union, elem_of_singleton, Hs, elem_of_app,
        list_elem_of_singleton. done.
Qed.

Lemma scan_rows_collected max lis F st :
  collected (Z.to_nat max) F st →
  collected (Z.to_nat max) (F ++ rendered lis) (scan_rows max lis st).
Proof.
  revert F st. induction lis as [|li rest IH]; intros F st Hc; simpl.
  - by rewrite app_nil_r.
  - destruct (Z.of_nat (length (profiles st)) >=? max) eqn:Hcap.
    + (* the cap is reached: the rest of the list is not looked at *)
      destruct Hc as [Hp Hs]. unfold collected.
      rewrite first_seen_app, take_app_le; [done|].
      rewrite Hp, length_fmap, length_take in Hcap.
      apply Z.geb_le in Hcap. lia.
    + assert (length (profiles st) < Z.to_nat max)%nat as Hlen
        by (rewrite Z.geb_leb in Hcap; apply Z.leb_gt in Hcap; lia).
      rewrite scan_row_href.
      unfold rendered. simpl. fold (rendered rest).
      destruct (row_href li) as [href|].
      * replace (F ++ href :: rendered rest)
          with ((F ++ [href]) ++ rendered rest) by (by rewrite <- app_assoc).
        apply IH. by apply collected_step.
      * by apply IH.
Qed.

Lemma collected_note_height n F h st :
  collected n F st → collected n F (note_height h st).
Proof. unfold collected, note_height. by case_match. Qed.

Lemma collected_length n F st :
  collected n F st → (length (profiles st) ≤ n)%nat.
Proof. intros [-> _]. rewrite length_fmap, length_take. lia. Qed.

(** [profiles[:max_profiles]] changes nothing: the loop never collects
    more than the cap. *)
Lemma collected_slice max F st :
  collected (Z.to_nat max) F st →
  py_slice_to (profiles st) max = profiles st.
Proof.
  intros Hc. pose proof (collected_length _ _ _ Hc) as Hlen.
  unfold py_slice_to. destruct (0 <=? max) eqn:Hsign.
  - apply take_ge. lia.
  - apply Z.leb_gt in Hsign.
    assert (Z.to_nat max = 0%nat) as E by lia. rewrite E in Hlen.
    destruct (profiles st); [by rewrite take_nil|simpl in Hlen; lia].
Qed.

End CollectorFacts.

Section LoopFacts.
Context {L : Type}.
Implicit Types w : L * list event.
Variables (max : Z) (env : SearchEnv).

Lemma loop_body_pass_step p st w :
  loop_body max p st w
  = Some (match pass_step max p st with
          | inl st' => inl st'
          | inr f => inr (exn_of_fault f)
          end, w).
Proof.
  unfold loop_body, pass_step. munfold.
  destruct (pass_lis p); simpl; [|done].
  destruct (pass_scroll p); simpl; [done|].
  by destruct (pass_new_height p).
Qed.

Lemma scroll_loop_unfold fuel i st w :
  scroll_loop fuel max env i st w =
    if loop_guard max st then
      match fuel with
      | O => None
      | S fuel' =>
          match pass_step max (pass env i) st with
          | inl st' => scroll_loop fuel' max env (S i) st' w
          | inr f => Some (inr (exn_of_fault f), w)
          end
      end
    else Some (inl st, w).
Proof.
  destruct fuel; simpl; destruct (loop_guard max st); try done.
  munfold. rewrite loop_body_pass_step. by destruct (pass_step _ _ _).
Qed.

(** The loop leaves the locals and the trace alone; what it raises
    comes from the page; what it returns fails the guard and holds the
    first links of the feed. *)
Lemma scroll_loop_run fuel i st w out w' :
  collected (Z.to_nat max) (feed env i) st →
  scroll_loop fuel max env i st w = Some (out, w') →
  w' = w
  ∧ match out with
    | inl st' =>
        loop_guard max st' = false
        ∧ ∃ k, (i ≤ k ≤ i + fuel)%nat
               ∧ collected (Z.to_nat max) (feed env k) st'
    | inr e => ∃ f, e = exn_of_fault f
    end.
Proof.
  revert i st. induction fuel as [|fuel IH]; intros i st Hc;
    rewrite scroll_loop_unfold; destruct (loop_guard max st) eqn:Hg;
    try done.
  - intros [= <- <-]. repeat split; [done|]. exists i. split; [lia|done].
  - unfold pass_step.
    destruct (pass_lis (pass env i)) as [lis|f] eqn:Hlis;
      [|intros [= <- <-]; eauto].
    destruct (pass_scroll (pass env i)) as [f|]; [intros [= <- <-]; eauto|].
    destruct (pass_new_height (pass env i)) as [h|f];
      [|intros [= <- <-]; eauto].
    intros Hrun. apply IH in Hrun as [-> Hout].
    + split; [done|]. destruct out as [st'|e]; [|done].
      destruct Hout as (Hg' & k & Hk & Hc'). split; [done|].
      exists k. split; [lia|done].
    + simpl. rewrite Hlis.
      by apply collected_note_height, scan_rows_collected.
  - intros [= <- <-]. repeat split; [done|]. exists i. split; [lia|done].
Qed.

(** More fuel does not change a run that ended. *)
Lemma scroll_loop_fuel fuel fuel' i st w r :
  (fuel ≤ fuel')%nat →
  scroll_loop fuel max env i st w = Some r →
  scroll_loop fuel' max env i st w = Some r.
Proof.
  revert fuel' i st. induction fuel as [|fuel IH]; intros fuel' i st Hle;
    rewrite !scroll_loop_unfold; destruct (loop_guard max st); try done.
  destruct fuel' as [|fuel']; [lia|].
  destruct (pass_step max (pass env i) st); [|done].
  apply IH. lia.
Qed.

Lemma note_height_last h st : last_height (note_height h st) = h.
Proof.
  unfold note_height. destruct (h =? last_height st) eqn:E; simpl; [|done].
  symmetry. by apply Z.eqb_eq.
Qed.

Lemma note_height_tries h st :
  0 ≤ scroll_tries st → 0 ≤ scroll_tries (note_height h st).
Proof. unfold note_height. case_match; simpl; lia. Qed.

(** Once the height stays the same for as many turns as the stall
    counter still needs, the loop ends. *)
Lemma scroll_loop_stall n fuel i st w :
  STALL_BOUND ≤ scroll_tries st + Z.of_nat n →
  (∀ j, (j < n)%nat → height_at env (S (i + j)) = inl (last_height st)) →
  (n ≤ fuel)%nat →
  ∃ r, scroll_loop fuel max env i st w = Some (r, w).
Proof.
  revert fuel i st. induction n as [|n IH]; intros fuel i st Htries Hh Hfuel;
    rewrite scroll_loop_unfold; destruct (loop_guard max st) eqn:Hg; eauto.
  - unfold loop_guard in Hg. apply andb_prop in Hg as [_ Hg].
    apply Z.ltb_lt in Hg. lia.
  - destruct fuel as [|fuel]; [lia|].
    unfold pass_step.
    destruct (pass_lis (pass env i)) as [lis|f]; [|eauto].
    destruct (pass_scroll (pass env i)) as [f|]; [eauto|].
    pose proof (Hh 0%nat ltac:(lia)) as H0. simpl in H0.
    rewrite Nat.add_0_r in H0. rewrite H0.
    destruct (scan_rows_frame max lis st) as [Hlast Htr].
    apply IH; [| |lia].
    + unfold note_height. rewrite Hlast, Z.eqb_refl. simpl. lia.
    + intros j Hj. rewrite note_height_last.
      rewrite <- (Hh (S j)) by lia. f_equal. lia.
Qed.

(** If the height read before turn [i + k] is read again at each of the
    next 30 turns, the loop ends within [k + 30] turns. *)
Lemma scroll_loop_terminates k h fuel i st w :
  0 ≤ scroll_tries st →
  height_at env i = inl (last_height st) →
  (∀ j, (j ≤ 30)%nat → height_at env (i + k + j) = inl h) →
  (k + 30 ≤ fuel)%nat →
  ∃ r, scroll_loop fuel max env i st w = Some (r, w).
Proof.
  revert fuel i st. induction k as [|k IH]; intros fuel i st Htries Hi Hh Hfuel.
  - apply (scroll_loop_stall 30); [unfold STALL_BOUND; lia| |lia].
    intros j Hj. rewrite <- Hi.
    pose proof (Hh 0%nat ltac:(lia)) as H0. rewrite !Nat.add_0_r in H0.
    rewrite H0, <- (Hh (S j)) by lia. f_equal. lia.
  - rewrite scroll_loop_unfold. destruct (loop_guard max st); [|eauto].
    destruct fuel as [|fuel]; [lia|].
    unfold pass_step.
    destruct (pass_lis (pass env i)) as [lis|f]; [|eauto].
    destruct (pass_scroll (pass env i)) as [f|]; [eauto|].
    destruct (pass_new_height (pass env i)) as [h'|f] eqn:Hnew; [|eauto].
    destruct (scan_rows_frame max lis st) as [Hlast Htr].
    apply IH; [| | |lia].
    + apply note_height_tries. lia.
    + simpl. by rewrite Hnew, note_height_last.
    + intros j Hj. rewrite <- (Hh j Hj). f_equal. lia.
Qed.

End LoopFacts.

Section CollectorRuns.
Context {L : Type}.
Variables (d : session) (q : string) (env : SearchEnv).

Lemma exn_of_fault_not_http f : is_HTTPException (exn_of_fault f) = false.
Proof. by destruct f. Qed.

Lemma submit_search_run (l : L) (tr : list event) :
  ∃ out st', submit_search d q env (l, tr) = Some (out, st')
    ∧ (st' = (l, tr) ∨ st' = (l, tr ++ [Typed d q]))
    ∧ match out with
      | inl h => initial_height env = inl h
      | inr e => is_HTTPException e = false
      end.
Proof.
  unfold submit_search. munfold.
  destruct env as [x p c sq sr rl ih ps]. simpl.
  destruct x as [[]|]; simpl; eauto 10;
  try (destruct p as [[]|]; simpl; eauto 10);
  (destruct c as [[]|]; simpl; eauto 10);
  (destruct sq as [[]|]; simpl; eauto 10);
  (destruct sr as [[]|]; simpl; eauto 10);
  (destruct rl as [[]|]; simpl; eauto 10);
  (destruct ih as [h|[]]; simpl; eauto 10).
Qed.

Lemma collected_start h :
  collected 0 [] {| profiles := []; seen := ∅;
                    last_height := h; scroll_tries := 0 |}
  ∧ ∀ n, collected n (feed env 0)
           {| profiles := []; seen := ∅;
              last_height := h; scroll_tries := 0 |}.
Proof.
  split; [|intros n]; unfold collected; simpl; rewrite ?take_nil;
    (split; [done|]); intros u; set_solver.
Qed.

(** What a run of the collector that ends has done and returns. *)
Lemma collect_run fuel max (l : L) tr out st' :
  search_and_collect_profiles fuel d q max env (l, tr) = Some (out, st') →
  (st' = (l, tr) ∨ st' = (l, tr ++ [Typed d q]))
  ∧ match out with
    | inl ps =>
        ∃ k, (k ≤ fuel)%nat
             ∧ ps = candidate <$> take (Z.to_nat max) (first_seen (feed env k))
    | inr e => is_HTTPException e = false
    end.
Proof.
  unfold search_and_collect_profiles. munfold.
  destruct (submit_search_run l tr) as (o & w & -> & Hw & Ho).
  destruct o as [h|e]; [|by intros [= <- <-]].
  destruct (scroll_loop _ _ _ _ _ _) as [[o' w']|] eqn:Hloop; [|done].
  apply scroll_loop_run in Hloop as [-> Ho'];
    [|apply collected_start].
  destruct o' as [st|e]; intros [= <- <-]; (split; [done|]).
  - destruct Ho' as (_ & k & Hk & Hc). exists k. split; [lia|].
    rewrite (collected_slice _ _ _ Hc). apply Hc.
  - destruct Ho' as [f ->]. apply exn_of_fault_not_http.
Qed.

(** The collector ends whenever the page height comes to rest for 30
    turns in a row. *)
Lemma collect_terminates k h fuel max (w : L * list event) :
  (∀ j, (j ≤ 30)%nat → height_at env (k + j) = inl h) →
  (k + 30 ≤ fuel)%nat →
  ∃ out w', search_and_collect_profiles fuel d q max env w = Some (out, w').
Proof.
  intros Hh Hfuel. destruct w as [l tr].
  unfold search_and_collect_profiles. munfold.
  destruct (submit_search_run l tr) as (o & w & -> & Hw & Ho).
  destruct o as [h0|e]; [|eauto].
  edestruct (scroll_loop_terminates (L:=L) max env k h fuel 0) as [r ->];
    [| |exact Hh|exact Hfuel|]; [simpl; lia|simpl; exact Ho|].
  destruct r; eauto.
Qed.

End CollectorRuns.

(** ** Sessions in a trace *)

Section Released.

Lemma all_released_tail e tr : all_released (e :: tr) → all_released tr.
Proof. destruct e; simpl; tauto. Qed.

Lemma all_released_app a b :
  all_released a → all_released b → all_released (a ++ b).
Proof.
  induction a as [|e a IH]; simpl; [done|].
  destruct e; simpl; try tauto.
  intros [Hq Ha] Hb. split; [|by apply IH].
  apply elem_of_app. by left.
Qed.

(** A session opened before [mid] and quit after it. *)
Lemma all_released_bracket s mid :
  all_released mid → all_released (Created s :: mid ++ [Quit s]).
Proof.
  intros Hm. simpl. split.
  - apply elem_of_app. right. by left.
  - apply all_released_app; [done|]. simpl. done.
Qed.

Lemma elem_of_interleave sched (ts : list (list event)) j t e :
  ts !! j = Some t → e ∈ t → e ∈ interleave sched ts.
Proof.
  revert ts t. induction sched as [|i sched IH]; intros ts t Hj He; simpl.
  - apply list_elem_of_lookup_2 in Hj. clear -Hj He.
    induction Hj as [t ts|t t' ts _ IH]; simpl; apply elem_of_app; auto.
  - destruct (ts !! i) as [[|e0 t0]|] eqn:Hi; [by eapply IH..| |by eapply IH].
    case_bool_decide; [|by eapply IH].
    destruct (decide (i = j)) as [->|Hne].
    + rewrite Hi in Hj. injection Hj as <-.
      apply elem_of_cons in He as [->|He]; [by left|]. right.
      apply (IH _ t0); [|done].
      apply list_lookup_insert_eq. by eapply lookup_lt_Some.
    + right. apply (IH _ t); [|done].
      by rewrite list_lookup_insert_ne.
Qed.

Lemma all_released_concat (ts : list (list event)) :
  Forall all_released ts → all_released (concat ts).
Proof.
  induction 1; simpl; [done|]. by apply all_released_app.
Qed.

(** However the pool interleaves them, workers that each quit what
    they create leave nothing open. *)
Lemma all_released_interleave sched (ts : list (list event)) :
  Forall all_released ts → all_released (interleave sched ts).
Proof.
  revert ts. induction sched as [|i sched IH]; intros ts Hts; simpl.
  - by apply all_released_concat.
  - destruct (ts !! i) as [[|e0 t0]|] eqn:Hi; [by apply IH..| |by apply IH].
    case_bool_decide; [|by apply IH].
    pose proof (Forall_lookup_1 _ _ _ _ Hts Hi) as H0.
    assert (all_released (interleave sched (<[i:=t0]> ts))) as Hrest
      by (apply IH, Forall_insert; [done|by eapply all_released_tail]).
    destruct e0; simpl; try done.
    split; [|done]. destruct H0 as [Hq _].
    apply (elem_of_interleave _ _ i t0); [|done].
    apply list_lookup_insert_eq. by eapply lookup_lt_Some.
Qed.

End Released.

(** ** The pool *)

Section PoolFacts.

Lemma omap_id_fmap {A B} (g : A → B) (fs : list (option A)) :
  omap id (fmap g <$> fs) = g <$> omap id fs.
Proof.
  induction fs as [|[a|] fs IH]; simpl; [done| |exact IH].
  f_equal. exact IH.
Qed.

Lemma as_completed_fmap {A B} (g : A → B) sched (fs : list (option A)) :
  as_completed sched (fmap (M:=option) g <$> fs)
  = g <$> as_completed sched fs.
Proof.
  revert fs. induction sched as [|i sched IH]; intros fs; simpl.
  - apply omap_id_fmap.
  - rewrite list_lookup_fmap.
    destruct (fs !! i) as [[r|]|] eqn:Hi; simpl; [|apply IH..].
    f_equal.
    rewrite <- IH. f_equal. by rewrite list_fmap_insert.
Qed.

Lemma omap_id_yield {A} (fs : list (option A)) i r :
  fs !! i = Some (Some r) → omap id fs ≡ₚ r :: omap id (<[i := None]> fs).
Proof.
  intros Hi. rewrite insert_take_drop by (by eapply lookup_lt_Some).
  rewrite <- (take_drop_middle fs i (Some r) Hi) at 1.
  rewrite !omap_app. simpl. by rewrite Permutation_middle.
Qed.

(** [as_completed] yields every future once, in some order. *)
Lemma as_completed_perm {A} sched (fs : list (option A)) :
  as_completed sched fs ≡ₚ omap id fs.
Proof.
  revert fs. induction sched as [|i sched IH]; intros fs; simpl; [done|].
  destruct (fs !! i) as [[r|]|] eqn:Hi; [|apply IH..].
  by rewrite IH, <- omap_id_yield.
Qed.

(** Every order of the futures is the order of some schedule. *)
Lemma as_completed_any_order {A} (fs : list (option A)) (l : list A) :
  omap id fs ≡ₚ l → ∃ sched, as_completed sched fs = l.
Proof.
  revert fs. induction l as [|x l IH]; intros fs Hp.
  - exists []. simpl. by apply Permutation_nil_r.
  - assert (x ∈ omap id fs) as Hx by (rewrite Hp; left).
    apply list_elem_of_omap in Hx as (o & Ho & Hox). simpl in Hox. subst o.
    apply list_elem_of_lookup_1 in Ho as [i Hi].
    destruct (IH (<[i := None]> fs)) as [sched Hs].
    { apply (Permutation_cons_inv (a:=x)).
      by rewrite <- omap_id_yield, Hp. }
    exists (i :: sched). simpl. by rewrite Hi, Hs.
Qed.

Lemma omap_id_Some {A} (l : list A) : omap id (Some <$> l) = l.
Proof. induction l as [|a l IH]; simpl; [done|]. f_equal. exact IH. Qed.

Lemma pool_results_perm env profiles :
  pool_results env profiles
  ≡ₚ imap (λ i p, worker_result i p (worker_env env i)) profiles.
Proof. unfold pool_results. by rewrite as_completed_perm, omap_id_Some. Qed.

Lemma mapM_id_imap {A X} (f : nat → A → option X) (g : nat → A → X) l :
  (∀ i a, f i a = Some (g i a)) → mapM id (imap f l) = Some (imap g l).
Proof.
  revert f g. induction l as [|a l IH]; intros f g Hfg; [done|].
  rewrite !imap_cons. simpl. rewrite Hfg. simpl.
  rewrite (IH (f ∘ S) (g ∘ S)); [done|]. intros i b. apply Hfg.
Qed.

Lemma gather_returns {L} rs acc found (w : L * list event) :
  gather (inl <$> rs) acc found w
  = Some (inl (acc ++ rs, found + count_found rs), w).
Proof.
  revert acc found. induction rs as [|r rs IH]; intros acc found; simpl.
  - munfold. unfold count_found. simpl. by rewrite app_nil_r, Z.add_0_r.
  - munfold. simpl. rewrite IH, <- app_assoc. simpl.
    assert ((if resume_found r then found + 1 else found) + count_found rs
            = found + count_found (r :: rs)) as ->; [|done].
    unfold count_found. rewrite filter_cons.
    destruct (resume_found r); simpl; lia.
Qed.

(** The [with] block always comes back with one dictionary per profile. *)
Lemma pool_phase_run {L} env profiles (w : L * list event) :
  pool_phase env profiles w
  = Some (inl (pool_results env profiles,
               count_found (pool_results env profiles)),
          (w.1, w.2 ++ pool_events env profiles)).
Proof.
  unfold pool_phase.
  rewrite (mapM_id_imap _
    (λ i p, (inl (worker_result i p (worker_env env i)),
             worker_trace i p (worker_env env i))))
    by (intros i p; apply run_worker_returns).
  munfold. simpl.
  set (done := imap _ profiles).
  assert (Some ∘ fst <$> done
          = fmap (M:=option) (inl (B:=exn)) <$>
              (Some <$> imap (λ i p, worker_result i p (worker_env env i))
                          profiles)) as ->.
  { unfold done. rewrite <- list_fmap_compose, !fmap_imap.
    by apply imap_ext. }
  assert (done.*2 = imap (λ i p, worker_trace i p (worker_env env i)) profiles)
    as ->.
  { unfold done. rewrite fmap_imap. by apply imap_ext. }
  by rewrite as_completed_fmap, gather_returns.
Qed.

End PoolFacts.

(** ** The request handler *)

Section EndpointFacts.
Variables (fuel : nat) (env : Env).

Lemma primary_phase_run q max l tr out l' tr' :
  primary_phase fuel env q max (l, tr) = Some (out, (l', tr')) →
  ((l' = l ∧ tr' = tr ∧ ∃ e, out = inr e)
   ∨ (l' = Some Primary
      ∧ (tr' = tr ++ [Created Primary]
         ∨ tr' = tr ++ [Created Primary; Typed Primary q])))
  ∧ match out with
    | inl ps =>
        ∃ k, (k ≤ fuel)%nat
             ∧ ps = candidate <$>
                      take (Z.to_nat max) (first_seen (feed (site env q) k))
    | inr e => is_HTTPException e = false
    end.
Proof.
  unfold primary_phase. munfold.
  destruct (create_driver_run Primary (primary_driver env) (l, tr))
    as [-> | (e & -> & He)]; [|intros [= <- <- <-]; eauto 10].
  simpl.
  destruct (login_linkedin_run (primary_login env)
              (Some Primary, tr ++ [Created Primary]))
    as [-> | (e & -> & He)]; [|intros [= <- <- <-]; eauto 10].
  intros Hrun. apply collect_run in Hrun as [Hst Hout].
  split; [|done]. right.
  destruct Hst as [[= -> ->] | [= -> ->]]; [auto|].
  split; [done|]. right. by rewrite <- app_assoc.
Qed.

Lemma serve_finish req :
  serve fuel env req
  = finish env (PyStr.strip (query req))
      <$> primary_phase fuel env (PyStr.strip (query req))
            (effective_max_profiles req) (None, []).
Proof.
  unfold serve, search_endpoint, driver_quit. munfold. simpl.
  destruct (primary_phase _ _ _ _ _) as [[[ps|e] [l tr]]|]; simpl; [| |done].
  - destruct ps as [|p ps]; simpl.
    + destruct l; simpl; [destruct (primary_quit env)|]; simpl;
        by rewrite ?app_nil_r.
    + rewrite pool_phase_run. simpl.
      destruct (csv_write env) as [[]|]; simpl;
        (destruct l; simpl; [destruct (primary_quit env)|]; simpl);
        by rewrite ?app_nil_r, <- ?app_assoc.
  - destruct (is_HTTPException e); simpl;
      (destruct l; simpl; [destruct (primary_quit env)|]; simpl);
      by rewrite ?app_nil_r.
Qed.

End EndpointFacts.

(** ** Order lemmas shared by the collector and the worker *)

Section Order.
Context {A : Type} `{EqDecision A}.

Lemma first_seen_filter (P : A → Prop) `{∀ x, Decision (P x)} (l : list A) :
  first_seen (filter P l) = filter P (first_seen l).
Proof.
  induction l as [|a l IH]; [done|].
  rewrite filter_cons. simpl first_seen at 2. case_decide as Ha.
  - simpl. rewrite filter_cons_True by done. f_equal.
    rewrite IH, !list_filter_filter. apply list_filter_iff. tauto.
  - rewrite filter_cons_False by done.
    rewrite IH, list_filter_filter. apply list_filter_iff.
    intros x. split; [|tauto]. intros Hx. split; [done|]. by intros ->.
Qed.

(** In [first_seen (filter P l)], and in any prefix of it, an earlier
    element is met in [l] before every copy of a later one. *)
Lemma first_seen_filter_order (P : A → Prop) `{∀ x, Decision (P x)}
    (l : list A) n i j x y :
  take n (first_seen (filter P l)) !! i = Some x →
  take n (first_seen (filter P l)) !! j = Some y →
  (i < j)%nat →
  ∃ a, l !! a = Some x ∧ ∀ b, l !! b = Some y → (a < b)%nat.
Proof.
  intros Hi Hj Hij.
  apply lookup_take_Some in Hi as [Hi _].
  apply lookup_take_Some in Hj as [Hj _].
  rewrite first_seen_filter in Hi, Hj.
  destruct (filter_lookup_order _ _ _ _ _ _ Hi Hj Hij)
    as (i' & j' & Hi' & Hj' & Hij').
  by eapply first_seen_order.
Qed.

Lemma first_seen_take_order (l : list A) n i j x y :
  take n (first_seen l) !! i = Some x →
  take n (first_seen l) !! j = Some y →
  (i < j)%nat →
  ∃ a, l !! a = Some x ∧ ∀ b, l !! b = Some y → (a < b)%nat.
Proof.
  intros Hi Hj Hij.
  apply lookup_take_Some in Hi as [Hi _].
  apply lookup_take_Some in Hj as [Hj _].
  by eapply first_seen_order.
Qed.

End Order.

(** ** The dictionary a worker returns *)

Lemma run_worker_cases i profile env r tr :
  run_worker i profile env = Some (inl r, tr) →
  profile_url r = profile !! "profile_url"
  ∧ ((∃ e, error r = Some (str_exn e)
           ∧ resume_found r = false ∧ resume_links r = [])
     ∨ (error r = None ∧ resume_found r = false ∧ resume_links r = [])
     ∨ (error r = None ∧ resume_found r = true
        ∧ ∃ anchors, w_anchors env = inl anchors
            ∧ resume_links r = dict_fromkeys (collect_links anchors []))).
Proof.
  destruct (worker_body_run i profile env (worker_init profile) [])
    as [[e H] | (out & r' & H & Hout)];
    rewrite (run_worker_of_body _ _ _ _ _ _ H); intros [= <- <-]; simpl.
  - split; [done|]. left. by exists e.
  - destruct out as [[]|e]; simpl.
    + destruct Hout as [-> | (anchors & Ha & ->)]; simpl.
      * split; [done|]. right. by left.
      * split; [done|]. right. right. repeat split; try done. by exists anchors.
    + subst r'. simpl. split; [done|]. left. by exists e.
Qed.

(** * The claims about the worker *)

(** C2: in every dictionary returned by [detect_resume_worker], a
    non-null [error] comes with [resume_found = False] and an empty
    [resume_links]: a failed check never reports a detection. *)
Theorem C2_error_means_no_detection i profile env r tr :
  run_worker i profile env = Some (inl r, tr) →
  error r ≠ None →
  resume_found r = false ∧ resume_links r = [].
Proof.
  intros Hrun Herr.
  destruct (run_worker_cases _ _ _ _ _ Hrun)
    as [_ [(e & _ & ? & ?) | [(He & _) | (He & _)]]]; done.
Qed.

Lemma C2_error_means_no_detection_witness :
  ∃ r tr,
    run_worker 1 (candidate "https://x.test/in/b") broken_navigation
    = Some (inl r, tr)
    ∧ error r = Some "net::ERR_CONNECTION_RESET"
    ∧ resume_found r = false ∧ resume_links r = [].
Proof.
  eexists _, _.
  assert (run_worker 1 (candidate "https://x.test/in/b") broken_navigation
          = Some (inl {| profile_url := Some "https://x.test/in/b";
                         resume_found := false; resume_links := [];
                         error := Some "net::ERR_CONNECTION_RESET" |},
                  [Created (Worker 1); Quit (Worker 1)])) as Hrun
    by (vm_compute; reflexivity).
  split; [exact Hrun|]. split; [reflexivity|].
  apply (C2_error_means_no_detection _ _ _ _ _ Hrun). simpl. discriminate.
Defined.

(** C3: [detect_resume_worker] is total at its boundary.  For every
    candidate and every behaviour of the browser it returns a dictionary
    and raises nothing; an exception raised anywhere in the body of its
    [try] (session creation, login, navigation, extraction) ends up, as
    [str(e)], in the [error] field, and [error] stays null when the body
    raises nothing. *)
Theorem C3_worker_never_raises i profile env :
  ∃ r tr,
    run_worker i profile env = Some (inl r, tr)
    ∧ (∀ e st, worker_body i profile env (worker_init profile, [])
               = Some (inr e, st) → error r = Some (str_exn e))
    ∧ (∀ st, worker_body i profile env (worker_init profile, [])
             = Some (inl tt, st) → error r = None).
Proof.
  destruct (worker_body_run i profile env (worker_init profile) [])
    as [[e H] | (out & r' & H & Hout)];
    rewrite (run_worker_of_body _ _ _ _ _ _ H), H;
    eexists _, _; (split; [reflexivity|]).
  - split; [by intros e' st [= <- _]|done].
  - destruct out as [[]|e]; simpl.
    + split; [done|]. intros _ _.
      destruct Hout as [-> | (anchors & _ & ->)]; done.
    + split; [by intros e' st [= <- _]|done].
Qed.

(** C8: when a check reports [resume_found = True], [resume_links] has
    no duplicates, every link in it matches the resume pattern (a document
    extension or one of the words resume and cv), and the links stand in
    the order in which the anchors of the page first show them: the list
    is the first-seen deduplication of the matching links of the readable
    anchors. *)
Theorem C8_resume_links_unique_ordered_matching i profile env r tr :
  run_worker i profile env = Some (inl r, tr) →
  resume_found r = true →
  NoDup (resume_links r)
  ∧ (∀ href, href ∈ resume_links r →
       is_resume_link href = true
       ∧ PyStr.re_search RESUME_REGEX href = true)
  ∧ ∃ anchors,
      w_anchors env = inl anchors
      ∧ resume_links r
        = first_seen (filter (λ h, is_resume_link h = true) (anchor_hrefs anchors))
      ∧ (∀ href, href ∈ anchor_hrefs anchors → is_resume_link href = true →
           href ∈ resume_links r)
      ∧ (∀ a b x y,
           resume_links r !! a = Some x → resume_links r !! b = Some y →
           (a < b)%nat →
           ∃ n, anchor_hrefs anchors !! n = Some x
                ∧ ∀ m, anchor_hrefs anchors !! m = Some y → (n < m)%nat).
Proof.
  intros Hrun Hfound.
  destruct (run_worker_cases _ _ _ _ _ Hrun)
    as [_ [(e & _ & ? & _) | [(_ & ? & _) | (_ & _ & anchors & Ha & Hl)]]];
    [congruence..|].
  rewrite dict_fromkeys_first_seen, collect_links_filter in Hl. simpl in Hl.
  assert (∀ href, href ∈ resume_links r ↔
            is_resume_link href = true ∧ href ∈ anchor_hrefs anchors) as Hmem.
  { intros href. by rewrite Hl, elem_of_first_seen, list_elem_of_filter. }
  split; [rewrite Hl; apply NoDup_first_seen|].
  split.
  - intros href [Hm _]%Hmem. split; [done|].
    by rewrite <- is_resume_link_regex.
  - exists anchors. repeat split; [done..| |].
    + intros href Hin Hm. by apply Hmem.
    + intros a b x y Hx Hy Hab. rewrite Hl in Hx, Hy.
      rewrite <- (take_ge (first_seen _) (length (first_seen
        (filter (λ h, is_resume_link h = true) (anchor_hrefs anchors)))))
        in Hx, Hy by done.
      by eapply first_seen_filter_order.
Qed.

Lemma C8_resume_links_unique_ordered_matching_witness :
  ∃ r tr,
    run_worker 0 (candidate "https://x.test/in/a") resume_page
    = Some (inl r, tr)
    ∧ resume_found r = true
    ∧ resume_links r = ["https://x.test/cv.pdf"; "https://x.test/Resume"]
    ∧ NoDup (resume_links r).
Proof.
  eexists _, _.
  assert (run_worker 0 (candidate "https://x.test/in/a") resume_page
          = Some (inl {| profile_url := Some "https://x.test/in/a";
                         resume_found := true;
                         resume_links := ["https://x.test/cv.pdf";
                                          "https://x.test/Resume"];
                         error := None |},
                  [Created (Worker 0); Quit (Worker 0)])) as Hrun
    by (vm_compute; reflexivity).
  split; [exact Hrun|]. split; [reflexivity|]. split; [reflexivity|].
  apply (C8_resume_links_unique_ordered_matching _ _ _ _ _ Hrun).
  reflexivity.
Defined.

(** * The claims about the collector *)

Section CollectorClaims.
Context {L : Type}.

Lemma collect_fuel fuel fuel' d q max env (w : L * list event) r :
  (fuel ≤ fuel')%nat →
  search_and_collect_profiles fuel d q max env w = Some r →
  search_and_collect_profiles fuel' d q max env w = Some r.
Proof.
  intros Hle. unfold search_and_collect_profiles. munfold.
  destruct (submit_search d q env w) as [[[h|e] w1]|]; [|done..].
  destruct (scroll_loop fuel _ _ _ _ _) as [r1|] eqn:Hloop; [|done].
  by rewrite (scroll_loop_fuel _ _ _ _ _ _ _ _ Hle Hloop).
Qed.

Lemma lookup_candidate href : candidate href !! "profile_url" = Some href.
Proof. apply lookup_singleton_eq. Qed.

Lemma urls_of_candidates (us : list string) :
  (λ p : Profile, p !! "profile_url") <$> (candidate <$> us) = Some <$> us.
Proof.
  rewrite <- list_fmap_compose. apply list_fmap_ext.
  intros _ u _. apply lookup_candidate.
Qed.

Lemma collect_guarantee fuel d q max env (w w' : L * list event) ps :
  search_and_collect_profiles fuel d q max env w = Some (inl ps, w') →
  NoDup ((λ p : Profile, p !! "profile_url") <$> ps)
  ∧ (length ps ≤ Z.to_nat max)%nat
  ∧ ∃ k us,
      (k ≤ fuel)%nat
      ∧ ps = candidate <$> us
      ∧ us = take (Z.to_nat max) (first_seen (feed env k))
      ∧ ∀ a b x y,
          us !! a = Some x → us !! b = Some y → (a < b)%nat →
          ∃ n, feed env k !! n = Some x
               ∧ ∀ m, feed env k !! m = Some y → (n < m)%nat.
Proof.
  destruct w as [l tr]. intros Hrun.
  apply collect_run in Hrun as [_ (k & Hk & ->)].
  split; [|split].
  - rewrite urls_of_candidates. apply NoDup_fmap_2; [apply _|].
    eapply sublist_NoDup; [apply NoDup_first_seen|apply sublist_take].
  - rewrite length_fmap, length_take. lia.
  - exists k, (take (Z.to_nat max) (first_seen (feed env k))).
    repeat split; [done|].
    intros a b x y. apply first_seen_take_order.
Qed.

End CollectorClaims.

(** C1: with a positive [max_profiles], the list returned by
    [search_and_collect_profiles] has no two entries with the same
    [profile_url], has at most [max_profiles] entries, and lists the
    candidates in the order in which the result page first showed them:
    it is the first [max_profiles] distinct links of the feed.  On a feed
    that renders A, B, B, C, D with [max_profiles = 3] it is exactly
    A, B, C. *)
Theorem C1_collect_unique_capped_first_seen :
  (∀ (fuel : nat) (d : session) (q : string) (max : Z) (env : SearchEnv)
     (w w' : unit * list event) (ps : list Profile),
     0 < max →
     search_and_collect_profiles fuel d q max env w = Some (inl ps, w') →
     NoDup ((λ p : Profile, p !! "profile_url") <$> ps)
     ∧ (length ps ≤ Z.to_nat max)%nat
     ∧ ∃ k us,
         (k ≤ fuel)%nat
         ∧ ps = candidate <$> us
         ∧ us = take (Z.to_nat max) (first_seen (feed env k))
         ∧ ∀ a b x y,
             us !! a = Some x → us !! b = Some y → (a < b)%nat →
             ∃ n, feed env k !! n = Some x
                  ∧ ∀ m, feed env k !! m = Some y → (n < m)%nat)
  ∧ (∀ fuel, (1 ≤ fuel)%nat →
       search_and_collect_profiles fuel Primary "Software Engineer" 3
         (still_page ["A"; "B"; "B"; "C"; "D"]) ((), [])
       = Some (inl [candidate "A"; candidate "B"; candidate "C"],
               ((), [Typed Primary "Software Engineer"]))).
Proof.
  split.
  - intros fuel d q max env w w' ps _. apply collect_guarantee.
  - intros fuel Hfuel. apply (collect_fuel 1); [done|].
    vm_compute. reflexivity.
Qed.

Lemma C1_collect_unique_capped_first_seen_witness :
  0 < 3
  ∧ search_and_collect_profiles 1 Primary "Software Engineer" 3
      (still_page ["A"; "B"; "B"; "C"; "D"]) ((), [])
    = Some (inl [candidate "A"; candidate "B"; candidate "C"],
            ((), [Typed Primary "Software Engineer"]))
  ∧ NoDup ((λ p : Profile, p !! "profile_url")
             <$> [candidate "A"; candidate "B"; candidate "C"])
  ∧ (length [candidate "A"; candidate "B"; candidate "C"] ≤ Z.to_nat 3)%nat.
Proof.
  assert (0 < 3) as Hpos by lia.
  assert (search_and_collect_profiles 1 Primary "Software Engineer" 3
            (still_page ["A"; "B"; "B"; "C"; "D"]) ((), [])
          = Some (inl [candidate "A"; candidate "B"; candidate "C"],
                  ((), [Typed Primary "Software Engineer"]))) as Hrun
    by (vm_compute; reflexivity).
  split; [exact Hpos|]. split; [exact Hrun|].
  destruct (proj1 C1_collect_unique_capped_first_seen _ _ _ _ _ _ _ _ Hpos Hrun)
    as (Hnodup & Hlen & _).
  split; [exact Hnodup|exact Hlen].
Defined.

Lemma endless_page_loops fuel i (w : unit * list event) :
  scroll_loop fuel 20 endless_page i
    {| profiles := []; seen := ∅;
       last_height := 1000 + Z.of_nat i; scroll_tries := 0 |} w
  = None.
Proof.
  revert i. induction fuel as [|fuel IH]; intros i;
    rewrite scroll_loop_unfold; [done|].
  change (loop_guard 20 _) with true. cbv iota.
  unfold pass_step. simpl pass_lis. simpl pass_scroll. simpl pass_new_height.
  cbv iota. simpl scan_rows. unfold note_height. simpl last_height.
  replace (1001 + Z.of_nat i =? 1000 + Z.of_nat i) with false
    by (symmetry; apply Z.eqb_neq; lia).
  simpl. replace (1001 + Z.of_nat i) with (1000 + Z.of_nat (S i)) by lia.
  apply IH.
Qed.

(** C5, as stated, fails: on a page that shows no candidate and gets
    higher with every scroll the loop never ends, whatever the number of
    turns allowed. *)
Lemma C5_counterexample_endless_page :
  ¬ ∃ fuel,
      is_Some (search_and_collect_profiles fuel Primary "Software Engineer" 20
                 endless_page ((), [])).
Proof.
  intros [fuel [r Hr]].
  unfold search_and_collect_profiles in Hr. munfold.
  change (submit_search Primary "Software Engineer" endless_page ((), []))
    with (Some (inl 1000 : Z + exn, ((), [Typed Primary "Software Engineer"])))
    in Hr.
  cbv iota beta in Hr.
  change 1000 with (1000 + Z.of_nat 0) in Hr.
  by rewrite endless_page_loops in Hr.
Qed.

(** ** The events of the pool and of a request *)

Section PoolEvents.

Lemma concat_yield (ts : list (list event)) i e t :
  ts !! i = Some (e :: t) → concat ts ≡ₚ e :: concat (<[i := t]> ts).
Proof.
  intros Hi. rewrite insert_take_drop by (by eapply lookup_lt_Some).
  rewrite <- (take_drop_middle ts i (e :: t) Hi) at 1.
  rewrite !concat_app. simpl. by rewrite <- Permutation_middle.
Qed.

(** An interleaving keeps every event of every worker, once. *)
Lemma interleave_perm sched (ts : list (list event)) :
  interleave sched ts ≡ₚ concat ts.
Proof.
  revert ts. induction sched as [|i sched IH]; intros ts; simpl; [done|].
  destruct (ts !! i) as [[|e t]|] eqn:Hi; [apply IH.. | |apply IH].
  case_bool_decide; [|apply IH].
  by rewrite IH, <- concat_yield.
Qed.

Lemma elem_of_concat (ts : list (list event)) e :
  e ∈ concat ts → ∃ t, t ∈ ts ∧ e ∈ t.
Proof.
  induction ts as [|t ts IH]; simpl; [by intros ?%elem_of_nil|].
  intros [He|He]%elem_of_app.
  - exists t. split; [by left|done].
  - destruct (IH He) as (t' & ? & ?). exists t'. split; [by right|done].
Qed.

Lemma worker_traces_released env (profiles : list Profile) :
  Forall all_released
    (imap (λ i p, worker_trace i p (worker_env env i)) profiles).
Proof.
  apply Forall_forall. intros t Ht.
  apply list_elem_of_lookup_1 in Ht as [i Hi].
  rewrite list_lookup_imap in Hi.
  destruct (profiles !! i) as [p|]; [|done]. injection Hi as <-.
  destruct (run_worker_returns i p (worker_env env i)) as [_ [-> | ->]];
    simpl; [done|]. split; [by left|done].
Qed.

Lemma pool_events_released env profiles :
  all_released (pool_events env profiles).
Proof. apply all_released_interleave, worker_traces_released. Qed.

(** The pool only starts and quits the sessions of its workers. *)
Lemma pool_events_kinds env profiles e :
  e ∈ pool_events env profiles →
  ∃ i, (i < length profiles)%nat
       ∧ (e = Created (Worker i) ∨ e = Quit (Worker i)).
Proof.
  unfold pool_events. rewrite interleave_perm.
  intros (t & Ht & He)%elem_of_concat.
  apply list_elem_of_lookup_1 in Ht as [i Hi].
  rewrite list_lookup_imap in Hi.
  destruct (profiles !! i) as [p|] eqn:Hp; [|done]. injection Hi as <-.
  exists i. split; [by eapply lookup_lt_Some|].
  destruct (run_worker_returns i p (worker_env env i)) as [_ [E | E]];
    rewrite E in He.
  - by apply elem_of_nil in He.
  - apply elem_of_cons in He as [->|He]; [by left|].
    apply list_elem_of_singleton in He as ->. by right.
Qed.

Lemma pool_results_length env profiles :
  length (pool_results env profiles) = length profiles.
Proof. by rewrite pool_results_perm, length_imap. Qed.

End PoolEvents.

Section ServeFacts.
Variables (fuel : nat) (env : Env) (req : SearchRequest).

Let q := PyStr.strip (query req).
Let m := effective_max_profiles req.

Lemma serve_cases out tr :
  serve fuel env req = Some (out, tr) →
  ∃ pout l ptr,
    primary_phase fuel env q m (None, []) = Some (pout, (l, ptr))
    ∧ finish env q (pout, (l, ptr)) = (out, tr).
Proof.
  rewrite serve_finish. fold q m.
  destruct (primary_phase fuel env q m (None, [])) as [[pout [l ptr]]|];
    simpl; [|done].
  intros [= E]. by exists pout, l, ptr.
Qed.

(** The shape of the trace of a request: nothing at all when no
    browser could be started, and otherwise the primary session is
    created first and quit last, with the query typed at most once, the
    events of the pool and at most one saved file in between. *)
Lemma serve_trace out tr :
  serve fuel env req = Some (out, tr) →
  tr = []
  ∨ ∃ typed mid saved,
      tr = Created Primary :: (typed ++ mid ++ saved) ++ [Quit Primary]
      ∧ (typed = [] ∨ typed = [Typed Primary q])
      ∧ (mid = [] ∨ ∃ ps, mid = pool_events env ps)
      ∧ (saved = []
         ∨ ∃ rows,
             saved = [SavedCsv (PyStr.os_path_join (OUTPUT_DIR env)
                                  (csv_filename q (utcnow env))) rows]).
Proof.
  intros (pout & l & ptr & Hp & Hf)%serve_cases.
  apply primary_phase_run in Hp as [[(-> & -> & e & ->) | [-> Hptr]] Hout].
  - left. simpl in Hf. by injection Hf as _ <-.
  - right.
    assert (∃ typed, ptr = Created Primary :: typed
              ∧ (typed = [] ∨ typed = [Typed Primary q])) as (typed & -> & Ht).
    { destruct Hptr as [-> | ->]; eexists; split; simpl; eauto. }
    exists typed. unfold finish in Hf.
    destruct pout as [[|p ps]|e].
    + injection Hf as _ <-. exists [], []. rewrite !app_nil_r. auto.
    + destruct (csv_write env); injection Hf as _ <-.
      * exists (pool_events env (p :: ps)), []. rewrite !app_nil_r.
        split; [by rewrite <- !app_assoc|]. eauto 10.
      * eexists (pool_events env (p :: ps)), [_].
        split; [by rewrite <- !app_assoc|]. eauto 10.
    + injection Hf as _ <-. exists [], []. rewrite !app_nil_r. auto.
Qed.

End ServeFacts.

(** * The claims about the request handler *)

(** The run of the scenario: three candidates, the worker of the second
    one fails to navigate, the third worker completes first. *)
Lemma demo_run :
  serve 1 (demo_env ["A"; "B"; "B"; "C"; "D"]) demo_request
  = Some (inl {| status := "completed";
                 resp_query := "Software Engineer";
                 profiles_checked := 3;
                 resumes_found := 2;
                 csv_path := demo_path;
                 results_preview :=
                   [demo_found "C"; demo_found "A"; demo_failed "B"] |},
          [Created Primary; Typed Primary "Software Engineer";
           Created (Worker 2); Created (Worker 0); Created (Worker 1);
           Quit (Worker 1); Quit (Worker 0); Quit (Worker 2);
           SavedCsv demo_path
             [demo_found "C"; demo_found "A"; demo_failed "B"];
           Quit Primary]).
Proof. vm_compute. reflexivity. Qed.

(** C4: the pool hands back exactly one dictionary per dispatched
    candidate, whatever happens inside the workers and in whatever order
    they complete: the result list is a permutation of the workers' own
    dictionaries, and [found_count] is the number of entries whose
    [resume_found] is true.  A completed request reports these numbers
    and saves this list.  With three candidates and one worker that
    raises during navigation the list has three entries, one of them with
    an error, and two resumes are counted. *)
Theorem C4_one_result_per_candidate :
  (∀ env profiles (w : option session * list event),
     ∃ results found w',
       pool_phase env profiles w = Some (inl (results, found), w')
       ∧ length results = length profiles
       ∧ results ≡ₚ imap (λ i p, worker_result i p (worker_env env i)) profiles
       ∧ found = count_found results)
  ∧ (∀ fuel env req resp tr,
       serve fuel env req = Some (inl resp, tr) →
       ∃ ps w results,
         primary_phase fuel env (PyStr.strip (query req))
           (effective_max_profiles req) (None, []) = Some (inl ps, w)
         ∧ profiles_checked resp = Z.of_nat (length ps)
         ∧ SavedCsv (csv_path resp) results ∈ tr
         ∧ length results = length ps
         ∧ results ≡ₚ imap (λ i p, worker_result i p (worker_env env i)) ps
         ∧ resumes_found resp = count_found results
         ∧ results_preview resp = take 10 results)
  ∧ (∃ resp tr,
       serve 1 (demo_env ["A"; "B"; "B"; "C"; "D"]) demo_request
       = Some (inl resp, tr)
       ∧ profiles_checked resp = 3
       ∧ length (results_preview resp) = 3%nat
       ∧ length (filter (λ r, is_Some (error r)) (results_preview resp)) = 1%nat
       ∧ resumes_found resp = 2).
Proof.
  split; [|split].
  - intros env profiles w. eexists _, _, _.
    split; [apply pool_phase_run|].
    split; [apply pool_results_length|].
    split; [apply pool_results_perm|done].
  - intros fuel env req resp tr (pout & l & ptr & Hp & Hf)%serve_cases.
    unfold finish in Hf.
    destruct pout as [[|p ps]|e]; [done| |done].
    destruct (csv_write env); [done|]. injection Hf as <- <-. simpl.
    exists (p :: ps), (l, ptr), (pool_results env (p :: ps)).
    split; [done|]. rewrite pool_results_length.
    split; [done|]. split.
    { rewrite !elem_of_app. right. by left. }
    split; [done|]. split; [apply pool_results_perm|done].
  - eexists _, _. split; [apply demo_run|]. vm_compute. auto.
Qed.

Lemma C4_one_result_per_candidate_witness :
  ∃ ps w results,
    primary_phase 1 (demo_env ["A"; "B"; "B"; "C"; "D"])
      (PyStr.strip (query demo_request))
      (effective_max_profiles demo_request) (None, []) = Some (inl ps, w)
    ∧ 3 = Z.of_nat (length ps)
    ∧ length results = length ps
    ∧ 2 = count_found results.
Proof.
  destruct (proj1 (proj2 C4_one_result_per_candidate) _ _ _ _ _ demo_run)
    as (ps & w & results & Hp & Hn & _ & Hlen & _ & Hfound & _).
  exists ps, w, results. auto.
Defined.

(** C9: every session that a run creates is quit before the run is
    over, on every path that leaves the handler or a worker: in the
    events of a worker, and in the events of a whole request (the primary
    session and the sessions of all workers, however the pool interleaves
    them), each [Created s] is followed by a [Quit s]. *)
Theorem C9_every_session_released :
  (∀ i profile wenv r tr,
     run_worker i profile wenv = Some (r, tr) → all_released tr)
  ∧ (∀ fuel env req out tr,
       serve fuel env req = Some (out, tr) → all_released tr).
Proof.
  split.
  - intros i profile wenv r tr Hrun.
    destruct (run_worker_returns i profile wenv) as [Hret Htr].
    rewrite Hret in Hrun. injection Hrun as _ <-.
    destruct Htr as [-> | ->]; simpl; [done|]. split; [by left|done].
  - intros fuel env req out tr
      [-> | (typed & mid & saved & -> & Ht & Hm & Hs)]%serve_trace; [done|].
    apply all_released_bracket. repeat apply all_released_app.
    + by destruct Ht as [-> | ->].
    + destruct Hm as [-> | [ps ->]]; [done|apply pool_events_released].
    + by destruct Hs as [-> | [rows ->]].
Qed.

Lemma C9_every_session_released_witness :
  all_released
    [Created Primary; Typed Primary "Software Engineer";
     Created (Worker 2); Created (Worker 0); Created (Worker 1);
     Quit (Worker 1); Quit (Worker 0); Quit (Worker 2);
     SavedCsv demo_path [demo_found "C"; demo_found "A"; demo_failed "B"];
     Quit Primary].
Proof.
  exact (proj2 C9_every_session_released _ _ _ _ _ demo_run).
Defined.

(** C6, as stated, fails: a negative [max_profiles] is neither clamped
    nor rejected; [x or MAX_PROFILES_DEFAULT] lets it through. *)
Lemma C6_counterexample_negative_cap :
  ¬ (1 ≤ effective_max_profiles negative_request).
Proof. unfold effective_max_profiles, negative_request. simpl. lia. Qed.

(** C6, amended: the effective [max_profiles] is the caller's value when
    that is a non-zero integer and the default 20 when it is absent or
    zero, so it is never 0 and is at least 1 whenever the caller's value
    is.  A negative value reaches the collector as it is; the run is
    bounded all the same: the collector returns at most
    [max(0, max_profiles)] candidates, and a completed request has
    checked at least one profile and at most [max_profiles]. *)
Theorem C6_effective_max_profiles req :
  effective_max_profiles req
  = match max_profiles req with
    | None => 20
    | Some n => if n =? 0 then 20 else n
    end
  ∧ effective_max_profiles req ≠ 0
  ∧ (∀ n, max_profiles req = Some n → 1 ≤ n →
       effective_max_profiles req = n)
  ∧ (∀ n, max_profiles req = Some n → n < 0 →
       effective_max_profiles req = n)
  ∧ (∀ fuel d q env (w w' : unit * list event) ps,
       search_and_collect_profiles fuel d q (effective_max_profiles req) env w
       = Some (inl ps, w') →
       Z.of_nat (length ps) ≤ Z.max 0 (effective_max_profiles req))
  ∧ (∀ fuel env resp tr,
       serve fuel env req = Some (inl resp, tr) →
       1 ≤ profiles_checked resp ≤ effective_max_profiles req).
Proof.
  split; [done|]. split; [|split; [|split; [|split]]].
  - unfold effective_max_profiles, py_or, MAX_PROFILES_DEFAULT.
    destruct (max_profiles req) as [n|]; [|done].
    destruct (n =? 0) eqn:E; [done|]. by apply Z.eqb_neq.
  - unfold effective_max_profiles, py_or. intros n -> Hn.
    by replace (n =? 0) with false by (symmetry; apply Z.eqb_neq; lia).
  - unfold effective_max_profiles, py_or. intros n -> Hn.
    by replace (n =? 0) with false by (symmetry; apply Z.eqb_neq; lia).
  - intros fuel d q env w w' ps Hrun.
    apply collect_guarantee in Hrun as (_ & Hlen & _). lia.
  - intros fuel env resp tr (pout & l & ptr & Hp & Hf)%serve_cases.
    unfold finish in Hf.
    destruct pout as [[|p ps]|e]; [done| |done].
    destruct (csv_write env); [done|]. injection Hf as <- _. simpl.
    rewrite pool_results_length.
    apply primary_phase_run in Hp as [_ (k & _ & Hps)].
    assert (length (p :: ps) ≤ Z.to_nat (effective_max_profiles req))%nat
      as Hlen by (rewrite Hps, length_fmap, length_take; lia).
    simpl length in *. lia.
Qed.

Lemma C6_effective_max_profiles_witness :
  max_profiles negative_request = Some (-5)
  ∧ -5 < 0
  ∧ effective_max_profiles negative_request = -5.
Proof.
  assert (max_profiles negative_request = Some (-5)) as Hreq by reflexivity.
  assert (-5 < 0) as Hneg by lia.
  split; [exact Hreq|]. split; [exact Hneg|].
  exact (proj1 (proj2 (proj2 (proj2 (C6_effective_max_profiles negative_request))))
           (-5) Hreq Hneg).
Defined.

(** With the negative cap the loop is not entered, nothing is collected,
    and the request ends as "not found". *)
Lemma negative_run :
  serve 0 (demo_env ["A"; "B"; "B"; "C"; "D"]) negative_request
  = Some (inr (HTTPException 404 NOT_FOUND_DETAIL),
          [Created Primary; Typed Primary "Software Engineer"; Quit Primary]).
Proof. vm_compute. reflexivity. Qed.

(** A search that finds nothing: the page shows no row and stalls. *)
Lemma empty_run :
  serve 30 (demo_env []) demo_request
  = Some (inr (HTTPException 404 NOT_FOUND_DETAIL),
          [Created Primary; Typed Primary "Software Engineer"; Quit Primary]).
Proof. vm_compute. reflexivity. Qed.

Lemma no_browser_run :
  serve 30 no_browser_env demo_request
  = Some (inr (HTTPException 500 "session not created"), []).
Proof. vm_compute. reflexivity. Qed.

(** C7: a request whose collection pass succeeds with no candidate is
    answered with [HTTPException 404] and the fixed "not found" detail;
    a request whose session creation, login or search fails is answered
    with [HTTPException 500] and the text of the failure.  The two cannot
    be confused: a 404 is only ever the answer to an empty collection, and
    the handler raises nothing but these two. *)
Theorem C7_not_found_is_distinct fuel env req out tr :
  serve fuel env req = Some (out, tr) →
  (∀ w, primary_phase fuel env (PyStr.strip (query req))
          (effective_max_profiles req) (None, []) = Some (inl [], w) →
        out = inr (HTTPException 404 NOT_FOUND_DETAIL))
  ∧ (∀ e w, primary_phase fuel env (PyStr.strip (query req))
              (effective_max_profiles req) (None, []) = Some (inr e, w) →
            out = inr (HTTPException 500 (str_exn e)))
  ∧ (∀ detail, out = inr (HTTPException 404 detail) →
       ∃ w, primary_phase fuel env (PyStr.strip (query req))
              (effective_max_profiles req) (None, []) = Some (inl [], w))
  ∧ (∀ e, out = inr e →
       e = HTTPException 404 NOT_FOUND_DETAIL
       ∨ ∃ detail, e = HTTPException 500 detail).
Proof.
  intros (pout & l & ptr & Hp & Hf)%serve_cases.
  pose proof (primary_phase_run _ _ _ _ _ _ _ _ _ Hp) as [_ Hout].
  rewrite Hp. unfold finish in Hf.
  destruct pout as [[|p ps]|e].
  - injection Hf as <- _.
    split; [done|]. split; [done|]. split; [eauto|].
    intros e [= <-]. by left.
  - destruct (csv_write env) as [f|]; injection Hf as <- _.
    + split; [done|]. split; [done|]. split; [done|].
      intros e [= <-]. eauto.
    + done.
  - rewrite Hout in Hf. injection Hf as <- _.
    split; [done|]. split; [by intros e' w [= <- _]|]. split; [done|].
    intros e' [= <-]. eauto.
Qed.

Lemma C7_not_found_is_distinct_witness :
  serve 30 (demo_env []) demo_request
  = Some (inr (HTTPException 404 NOT_FOUND_DETAIL),
          [Created Primary; Typed Primary "Software Engineer"; Quit Primary])
  ∧ ∃ w, primary_phase 30 (demo_env []) (PyStr.strip (query demo_request))
           (effective_max_profiles demo_request) (None, []) = Some (inl [], w).
Proof.
  split; [exact empty_run|].
  exact (proj1 (proj2 (proj2 (C7_not_found_is_distinct _ _ _ _ _ empty_run)))
           NOT_FOUND_DETAIL eq_refl).
Defined.

Lemma blank_run :
  serve 1 (demo_env ["A"; "B"; "B"; "C"; "D"]) blank_request
  = Some (inl {| status := "completed";
                 resp_query := "";
                 profiles_checked := 3;
                 resumes_found := 2;
                 csv_path := "/app/output/results__20240101T000000Z.csv";
                 results_preview :=
                   [demo_found "C"; demo_found "A"; demo_failed "B"] |},
          [Created Primary; Typed Primary "";
           Created (Worker 2); Created (Worker 0); Created (Worker 1);
           Quit (Worker 1); Quit (Worker 0); Quit (Worker 2);
           SavedCsv "/app/output/results__20240101T000000Z.csv"
             [demo_found "C"; demo_found "A"; demo_failed "B"];
           Quit Primary]).
Proof. vm_compute. reflexivity. Qed.

Lemma serve_stripped fuel env req :
  serve fuel env {| query := PyStr.strip (query req);
                    max_profiles := max_profiles req |}
  = serve fuel env req.
Proof. rewrite !serve_finish. simpl. by rewrite PyStrFacts.strip_idemp. Qed.

(** * Further properties of the code *)

(** ** [create_driver] *)

(** X1: [create_driver] returns a session exactly when Chrome starts and
    a chromedriver is at hand; the session then exists and nothing else
    happened.  When it raises, no session exists and nothing changed; with
    the system chromedriver the exception is Chrome's own, on the fallback
    path it is always the [RuntimeError] with the installation advice,
    whatever failed. *)
Theorem X1_create_driver_outcome {L : Type} (s : session) (env : DriverEnv)
    (st : L * list event) :
  (driver_starts env = true →
     create_driver s env st = Some (inl s, (st.1, st.2 ++ [Created s])))
  ∧ (∀ f, chromedriver_exists env = true → chrome_start env = Some f →
       create_driver s env st = Some (inr (exn_of_fault f), st))
  ∧ (chromedriver_exists env = false → driver_starts env = false →
       create_driver s env st = Some (inr (RuntimeError CHROMEDRIVER_ERROR), st)).
Proof.
  unfold driver_starts, create_driver, webdriver_Chrome. munfold.
  destruct st as [l tr].
  destruct env as [[] [c|] [t|] [i|]]; simpl; repeat split; try done;
    intros; simplify_eq; done.
Qed.

Lemma X1_create_driver_outcome_witness :
  driver_starts ok_driver = true
  ∧ create_driver (Worker 4) ok_driver ((), [])
    = Some (inl (Worker 4), ((), [Created (Worker 4)])).
Proof.
  assert (driver_starts ok_driver = true) as Hok by reflexivity.
  split; [exact Hok|].
  exact (proj1 (X1_create_driver_outcome (Worker 4) ok_driver ((), [])) Hok).
Defined.

(** X2: the anti-detection tweak is best effort: whether
    [execute_cdp_cmd] raises or not makes no difference to what
    [create_driver] returns, raises or leaves behind. *)
Theorem X2_create_driver_ignores_cdp_failure {L : Type} (s : session)
    (env : DriverEnv)
    (o : option fault) (st : L * list event) :
  create_driver s
    {| chromedriver_exists := chromedriver_exists env;
       chrome_start := chrome_start env;
       cdp_tweak := o;
       manager_install := manager_install env |} st
  = create_driver s env st.
Proof.
  unfold create_driver, webdriver_Chrome. munfold. destruct st as [l tr].
  destruct env as [[] [c|] [t|] [i|]], o; reflexivity.
Qed.

(** ** [login_linkedin] *)

(** X3: [login_linkedin] returns [True] exactly when the login page
    loads, both fields appear, the credentials can be typed, and the
    search box appears or, after the search box timed out, the avatar
    does; in every other case it raises.  It never touches the local
    variables or the trace. *)
Theorem X3_login_succeeds_iff {L : Type} (env : LoginEnv)
    (st : L * list event) :
  (login_succeeds env = true → login_linkedin env st = Some (inl true, st))
  ∧ (login_succeeds env = false →
       ∃ e, login_linkedin env st = Some (inr e, st)).
Proof.
  unfold login_succeeds, login_linkedin. munfold. destruct st as [l tr].
  destruct env as [g u p f sb av]. simpl.
  destruct g as [[]|]; simpl; try solve [split; intros; first [done|eauto]];
  destruct u as [[]|]; simpl; try solve [split; intros; first [done|eauto]];
  destruct p as [[]|]; simpl; try solve [split; intros; first [done|eauto]];
  destruct f as [[]|]; simpl; try solve [split; intros; first [done|eauto]];
  destruct sb as [[]|]; simpl; try solve [split; intros; first [done|eauto]];
  destruct av as [[]|]; simpl; solve [split; intros; first [done|eauto]].
Qed.

Lemma X3_login_succeeds_iff_witness :
  login_succeeds avatar_login = true
  ∧ login_linkedin avatar_login ((), []) = Some (inl true, ((), [])).
Proof.
  assert (login_succeeds avatar_login = true) as Hok by reflexivity.
  split; [exact Hok|].
  exact (proj1 (X3_login_succeeds_iff avatar_login ((), [])) Hok).
Defined.

(** X4: how [login_linkedin] fails.  A timeout while waiting for the
    two fields becomes the [RuntimeError] "Login page did not load ...";
    timeouts on both post-login signals become the [RuntimeError] "Login
    didn't complete ..."; a fault that is not a timeout on the search box
    is raised as it is and the avatar is not looked for. *)
Theorem X4_login_error_classes {L : Type} (env : LoginEnv)
    (st : L * list event) :
  login_get env = None →
  (is_timeout (login_username env) = true
   ∨ (login_username env = None ∧ is_timeout (login_password env) = true) →
     login_linkedin env st = Some (inr (RuntimeError LOGIN_PAGE_ERROR), st))
  ∧ (login_username env = None → login_password env = None →
     login_fill env = None →
     (is_timeout (login_search_box env) = true →
      is_timeout (login_avatar env) = true →
        login_linkedin env st
        = Some (inr (RuntimeError LOGIN_INCOMPLETE_ERROR), st))
     ∧ (∀ f, login_search_box env = Some f → is_timeout (Some f) = false →
          login_linkedin env st = Some (inr (exn_of_fault f), st))).
Proof.
  unfold login_linkedin. munfold. destruct st as [l tr].
  destruct env as [g u p f sb av]. simpl. intros ->. split.
  - intros [Hu | [-> Hp]].
    + by destruct u as [[]|].
    + by destruct p as [[]|].
  - intros -> -> ->. simpl. split.
    + intros Hsb Hav. destruct sb as [[]|]; try done.
      by destruct av as [[]|].
    + intros f' -> Hf. by destruct f'.
Qed.

Lemma X4_login_error_classes_witness :
  login_get blocked_login = None
  ∧ login_linkedin blocked_login ((), [])
    = Some (inr (RuntimeError LOGIN_INCOMPLETE_ERROR), ((), [])).
Proof.
  assert (login_get blocked_login = None) as Hget by reflexivity.
  split; [exact Hget|].
  exact (proj1 (proj2 (X4_login_error_classes blocked_login ((), []) Hget)
                  eq_refl eq_refl eq_refl) eq_refl eq_refl).
Defined.

(** ** [search_and_collect_profiles] *)

Section CollectorExtras.
Context {L : Type}.
Implicit Types st : L * list event.

Lemma collect_same_submit fuel d q max env env' st :
  submit_search d q env st = submit_search d q env' st →
  pass env = pass env' →
  search_and_collect_profiles fuel d q max env st
  = search_and_collect_profiles fuel d q max env' st.
Proof.
  intros Hs Hp. unfold search_and_collect_profiles. munfold. rewrite Hs.
  destruct (submit_search d q env' st) as [[[h|e] w]|]; [|done..].
  assert (∀ fuel i c, scroll_loop fuel max env i c w
                      = scroll_loop fuel max env' i c w) as ->; [|done].
  clear -Hp. intros fuel. induction fuel as [|fuel IH]; intros i c;
    rewrite !scroll_loop_unfold; [done|].
  rewrite Hp. destruct (loop_guard max c); [|done].
  destruct (pass_step max (pass env' i) c); [apply IH|done].
Qed.

(** X5: the search box.  When both locators time out the collector
    raises [RuntimeError "Search input not found"] and has typed nothing;
    when only the preferred one times out the run is the one of a page
    where it answered; a fault of the preferred locator that is not a
    timeout is raised as it is. *)
Theorem X5_search_input_fallback fuel d q max env st :
  (is_timeout (input_xpath env) = true →
   is_timeout (input_placeholder env) = true →
     search_and_collect_profiles fuel d q max env st
     = Some (inr (RuntimeError "Search input not found"), st))
  ∧ (is_timeout (input_xpath env) = true → input_placeholder env = None →
       search_and_collect_profiles fuel d q max env st
       = search_and_collect_profiles fuel d q max (with_input_xpath None env) st)
  ∧ (∀ f, input_xpath env = Some f → is_timeout (Some f) = false →
       search_and_collect_profiles fuel d q max env st
       = Some (inr (exn_of_fault f), st)).
Proof.
  split; [|split].
  - intros Hx Hp. unfold search_and_collect_profiles, submit_search. munfold.
    destruct st as [l tr]. destruct (input_xpath env) as [[]|]; try done.
    by destruct (input_placeholder env) as [[]|].
  - intros Hx Hp. apply collect_same_submit; [|done].
    unfold submit_search, with_input_xpath. munfold. simpl.
    destruct st as [l tr]. destruct (input_xpath env) as [[]|]; try done.
    by rewrite Hp.
  - intros f Hx Hf. unfold search_and_collect_profiles, submit_search. munfold.
    destruct st as [l tr]. rewrite Hx. by destruct f.
Qed.

(** X6: a result list that does not appear in time is not an error: the
    run goes on exactly as if it had appeared. *)
Theorem X6_results_list_timeout_tolerated fuel d q max env st :
  is_timeout (results_list env) = true →
  search_and_collect_profiles fuel d q max env st
  = search_and_collect_profiles fuel d q max (with_results_list None env) st.
Proof.
  intros Hr. apply collect_same_submit; [|done].
  unfold submit_search, with_results_list. munfold. simpl.
  destruct st as [l tr].
  destruct (input_xpath env) as [[]|]; simpl; try done;
    try (destruct (input_placeholder env) as [[]|]; simpl; try done);
    (destruct (input_clear env); simpl; [done|]);
    (destruct (input_send_query env); simpl; [done|]);
    (destruct (input_send_return env); simpl; [done|]);
    by destruct (results_list env) as [[]|].
Qed.

Lemma note_height_stalled env i h c :
  height_at env (S i) = inl h →
  stalled_for env i c → stalled_for env (S i) (note_height h c).
Proof.
  intros Hh [Ht Hj]. unfold stalled_for, note_height.
  destruct (h =? last_height c) eqn:E; simpl.
  - apply Z.eqb_eq in E. subst h. split; [lia|].
    intros [|j] Hle; [by rewrite Nat.sub_0_r|].
    rewrite Nat.sub_succ. apply Hj. lia.
  - split; [lia|]. intros j Hle.
    assert (j = 0%nat) as -> by lia. by rewrite Nat.sub_0_r.
Qed.

Lemma stalled_for_scan env i max lis c :
  stalled_for env i c → stalled_for env i (scan_rows max lis c).
Proof.
  unfold stalled_for.
  by destruct (scan_rows_frame max lis c) as [-> ->].
Qed.

(** The loop keeps both of its invariants up to the turn at which it is
    left. *)
Lemma scroll_loop_stalled max env fuel i c st out st' :
  collected (Z.to_nat max) (feed env i) c →
  stalled_for env i c →
  scroll_loop fuel max env i c st = Some (inl out, st') →
  loop_guard max out = false
  ∧ ∃ k, (i ≤ k ≤ i + fuel)%nat
         ∧ collected (Z.to_nat max) (feed env k) out
         ∧ stalled_for env k out.
Proof.
  revert i c. induction fuel as [|fuel IH]; intros i c Hc Hs;
    rewrite scroll_loop_unfold; destruct (loop_guard max c) eqn:Hg;
    try done.
  - intros [= <- <-]. split; [done|]. exists i. split; [lia|done].
  - unfold pass_step.
    destruct (pass_lis (pass env i)) as [lis|f] eqn:Hlis; [|done].
    destruct (pass_scroll (pass env i)) as [f|]; [done|].
    destruct (pass_new_height (pass env i)) as [h|f] eqn:Hh; [|done].
    intros Hrun. apply IH in Hrun as (Hg' & k & Hk & Hc' & Hs').
    + split; [done|]. exists k. split; [lia|done].
    + simpl. rewrite Hlis.
      by apply collected_note_height, scan_rows_collected.
    + by apply note_height_stalled, stalled_for_scan.
  - intros [= <- <-]. split; [done|]. exists i. split; [lia|done].
Qed.

(** X7: a run that returns fewer than [max_profiles] candidates has
    scrolled at least 30 times and has read the same height at its last
    31 reads; what it returns is then every distinct link the page
    rendered during the run, none left out. *)
Theorem X7_short_result_means_stalled fuel d q max env st st' ps :
  search_and_collect_profiles fuel d q max env st = Some (inl ps, st') →
  Z.of_nat (length ps) < max →
  ∃ k h,
    (30 ≤ k ≤ fuel)%nat
    ∧ (∀ j, (j ≤ 30)%nat → height_at env (k - j) = inl h)
    ∧ ps = candidate <$> first_seen (feed env k)
    ∧ ∀ u, u ∈ feed env k ↔ candidate u ∈ ps.
Proof.
  destruct st as [l tr]. unfold search_and_collect_profiles. munfold.
  destruct (submit_search_run d q env l tr) as (o & w & -> & _ & Ho).
  destruct o as [h0|e]; [|done].
  destruct (scroll_loop _ _ _ _ _ _) as [[[c|e] w']|] eqn:Hloop; [|done..].
  intros [= <- <-] Hlen.
  apply scroll_loop_stalled in Hloop as (Hg & k & Hk & Hc & [Ht Hh]).
  - rewrite (collected_slice _ _ _ Hc) in Hlen |- *.
    destruct Hc as [Hp _]. rewrite Hp, length_fmap, length_take in Hlen.
    assert (take (Z.to_nat max) (first_seen (feed env k))
            = first_seen (feed env k)) as Hall by (apply take_ge; lia).
    rewrite Hall in Hp.
    unfold loop_guard, STALL_BOUND in Hg.
    apply andb_false_iff in Hg as [Hg | Hg]; apply Z.ltb_ge in Hg.
    { rewrite Hp, length_fmap in Hg. lia. }
    exists k, (last_height c). split; [lia|]. split.
    + intros j Hj. apply Hh. lia.
    + split; [done|]. intros u. rewrite Hp.
      rewrite <- elem_of_first_seen. split.
      * apply list_elem_of_fmap_2.
      * intros (u' & Hu & Hin)%list_elem_of_fmap_1.
        assert (candidate u !! "profile_url" = candidate u' !! "profile_url")
          as E by (by rewrite Hu).
        unfold candidate in E. rewrite !lookup_singleton_eq in E.
        by injection E as ->.
  - apply collected_start.
  - unfold stalled_for. simpl. split; [lia|].
    intros j Hj. assert (j = 0%nat) as -> by lia. done.
Qed.


End CollectorExtras.

Lemma X5_search_input_fallback_witness :
  is_timeout (input_xpath no_search_box) = true
  ∧ is_timeout (input_placeholder no_search_box) = true
  ∧ search_and_collect_profiles 30 Primary "Software Engineer" 20
      no_search_box ((), [])
    = Some (inr (RuntimeError "Search input not found"), ((), [])).
Proof.
  assert (is_timeout (input_xpath no_search_box) = true) as Hx by reflexivity.
  assert (is_timeout (input_placeholder no_search_box) = true) as Hp
    by reflexivity.
  split; [exact Hx|]. split; [exact Hp|].
  exact (proj1 (X5_search_input_fallback 30 Primary "Software Engineer" 20
                  no_search_box ((), [])) Hx Hp).
Defined.

Lemma X6_results_list_timeout_tolerated_witness :
  is_timeout (results_list late_list_page) = true
  ∧ search_and_collect_profiles 30 Primary "Software Engineer" 20
      late_list_page ((), [])
    = search_and_collect_profiles 30 Primary "Software Engineer" 20
        (with_results_list None late_list_page) ((), []).
Proof.
  assert (is_timeout (results_list late_list_page) = true) as Hr
    by reflexivity.
  split; [exact Hr|].
  exact (X6_results_list_timeout_tolerated 30 Primary "Software Engineer" 20
           late_list_page ((), []) Hr).
Defined.

Lemma X7_short_result_means_stalled_witness :
  search_and_collect_profiles 30 Primary "Software Engineer" 20
    (still_page five_links) ((), [])
  = Some (inl (candidate <$> five_links),
          ((), [Typed Primary "Software Engineer"]))
  ∧ Z.of_nat (length (candidate <$> five_links)) < 20
  ∧ ∃ k h,
      (30 ≤ k ≤ 30)%nat
      ∧ (∀ j, (j ≤ 30)%nat → height_at (still_page five_links) (k - j) = inl h)
      ∧ candidate <$> five_links
        = candidate <$> first_seen (feed (still_page five_links) k)
      ∧ ∀ u, u ∈ feed (still_page five_links) k
             ↔ candidate u ∈ candidate <$> five_links.
Proof.
  assert (search_and_collect_profiles 30 Primary "Software Engineer" 20
            (still_page five_links) ((), [])
          = Some (inl (candidate <$> five_links),
                  ((), [Typed Primary "Software Engineer"]))) as Hrun
    by (vm_compute; reflexivity).
  assert (Z.of_nat (length (candidate <$> five_links)) < 20) as Hlen
    by (vm_compute; reflexivity).
  split; [exact Hrun|]. split; [exact Hlen|].
  exact (X7_short_result_means_stalled _ _ _ _ _ _ _ _ Hrun Hlen).
Defined.


(** ** [detect_resume_worker] *)

Section WorkerExtras.
Context {L : Type}.

Lemma create_driver_started s env (st : L * list event) :
  driver_starts env = true →
  create_driver s env st = Some (inl s, (st.1, st.2 ++ [Created s])).
Proof.
  unfold driver_starts, create_driver, webdriver_Chrome. munfold.
  destruct st as [l tr]. by destruct env as [[] [c|] [t|] [i|]].
Qed.

Lemma create_driver_failed s env (st : L * list event) :
  driver_starts env = false →
  ∃ e, create_driver s env st = Some (inr e, st).
Proof.
  unfold driver_starts, create_driver, webdriver_Chrome. munfold.
  destruct st as [l tr]. destruct env as [[] [c|] [t|] [i|]]; simpl; eauto; done.
Qed.

Lemma login_passed env (st : L * list event) :
  login_succeeds env = true → login_linkedin env st = Some (inl true, st).
Proof.
  intros Hok. destruct (login_linkedin_run env st) as [-> | (e & He & _)];
    [done|exfalso].
  revert Hok He. unfold login_succeeds, login_linkedin. munfold.
  destruct st as [l tr]. destruct env as [g u p f sb av]. simpl.
  destruct g as [[]|]; simpl; try done;
  destruct u as [[]|]; simpl; try done;
  destruct p as [[]|]; simpl; try done;
  destruct f as [[]|]; simpl; try done;
  destruct sb as [[]|]; simpl; try done;
  destruct av as [[]|]; simpl; done.
Qed.

Lemma login_failed env (st : L * list event) :
  login_succeeds env = false → ∃ e, login_linkedin env st = Some (inr e, st).
Proof.
  intros Hko. destruct (login_linkedin_run env st) as [He | (e & -> & _)];
    [exfalso|eauto].
  revert Hko He. unfold login_succeeds, login_linkedin. munfold.
  destruct st as [l tr]. destruct env as [g u p f sb av]. simpl.
  destruct g as [[]|]; simpl; try done;
  destruct u as [[]|]; simpl; try done;
  destruct p as [[]|]; simpl; try done;
  destruct f as [[]|]; simpl; try done;
  destruct sb as [[]|]; simpl; try done;
  destruct av as [[]|]; simpl; done.
Qed.

End WorkerExtras.

(** When the body of the worker reaches the two assignments. *)
Lemma worker_body_found i profile env out l' tr' :
  worker_body i profile env (worker_init profile, []) = Some (out, (l', tr')) →
  resume_found (result l') = true
  ↔ driver_starts (w_driver env) = true
    ∧ login_succeeds (w_login env) = true
    ∧ is_Some (profile !! "profile_url")
    ∧ w_get env = None
    ∧ ∃ html anchors,
        w_page_source env = inl html
        ∧ PyStr.re_search RESUME_REGEX html = true
        ∧ w_anchors env = inl anchors.
Proof.
  unfold worker_body. munfold.
  destruct (driver_starts (w_driver env)) eqn:Hd.
  2: { destruct (create_driver_failed (Worker i) (w_driver env)
                   (worker_init profile, []) Hd) as [e ->].
       intros [= <- <- <-]. simpl. split; [done|].
       intros (?&?&?&?&?&?&?&?&?); congruence. }
  rewrite (create_driver_started _ _ _ Hd). simpl.
  destruct (login_succeeds (w_login env)) eqn:Hl.
  2: { destruct (login_failed (w_login env)
                   (set_driver (Some (Worker i)) (worker_init profile),
                    [Created (Worker i)]) Hl) as [e ->].
       intros [= <- <- <-]. simpl. split; [done|].
       intros (?&?&?&?&?&?&?&?&?); congruence. }
  rewrite (login_passed _ _ Hl). unfold getitem. munfold.
  destruct (profile !! "profile_url") as [url|] eqn:Hurl.
  2: { intros [= <- <- <-]. simpl. split; [done|].
       intros (_ & _ & [? ?] & _). done. }
  destruct (w_get env) as [f|] eqn:Hget; simpl.
  { intros [= <- <- <-]. simpl. split; [done|].
       intros (?&?&?&?&?&?&?&?&?); congruence. }
  destruct (w_page_source env) as [html|f] eqn:Hps; simpl.
  2: { intros [= <- <- <-]. simpl. split; [done|].
       intros (?&?&?&?&?&?&?&?&?); congruence. }
  destruct (PyStr.re_search RESUME_REGEX html) eqn:Hre; simpl.
  2: { intros [= <- <- <-]. simpl. split; [done|].
       intros (?&?&?&?&?&?&?&?&?); congruence. }
  destruct (w_anchors env) as [anchors|f] eqn:Ha; simpl.
  2: { intros [= <- <- <-]. simpl. split; [done|].
       intros (?&?&?&?&?&?&?&?&?); congruence. }
  intros [= <- <- <-]. simpl. split; [|done]. intros _.
  repeat split; eauto.
Qed.

(** X9: a check reports [resume_found = True] exactly when the browser
    started, the login went through, the candidate has a [profile_url],
    the navigation succeeded, the page source matches the resume pattern
    and the anchors could be listed.  Whether any anchor matches plays
    no part: a page that only mentions a CV is reported as found, with an
    empty [resume_links]. *)
Theorem X9_resume_found_iff i profile env r tr :
  run_worker i profile env = Some (inl r, tr) →
  resume_found r = true
  ↔ driver_starts (w_driver env) = true
    ∧ login_succeeds (w_login env) = true
    ∧ is_Some (profile !! "profile_url")
    ∧ w_get env = None
    ∧ ∃ html anchors,
        w_page_source env = inl html
        ∧ PyStr.re_search RESUME_REGEX html = true
        ∧ w_anchors env = inl anchors.
Proof.
  destruct (worker_body_total i profile env (worker_init profile, []))
    as (out & [l' tr'] & Hbody).
  rewrite (run_worker_of_body _ _ _ _ _ _ Hbody). intros [= <- _].
  rewrite <- (worker_body_found _ _ _ _ _ _ Hbody). by destruct out.
Qed.

Lemma X9_resume_found_iff_witness :
  run_worker 0 (candidate "https://x.test/in/a") mention_page
  = Some (inl {| profile_url := Some "https://x.test/in/a";
                 resume_found := true; resume_links := []; error := None |},
          [Created (Worker 0); Quit (Worker 0)])
  ∧ driver_starts (w_driver mention_page) = true.
Proof.
  assert (run_worker 0 (candidate "https://x.test/in/a") mention_page
          = Some (inl {| profile_url := Some "https://x.test/in/a";
                         resume_found := true; resume_links := [];
                         error := None |},
                  [Created (Worker 0); Quit (Worker 0)])) as Hrun
    by (vm_compute; reflexivity).
  split; [exact Hrun|].
  exact (proj1 (proj1 (X9_resume_found_iff _ _ _ _ _ Hrun) eq_refl)).
Defined.

(** X10: the dictionary always carries the candidate's [profile_url]
    ([None] when the key is missing), also when the check failed.  A
    candidate without the key is only found out after the browser was
    started and logged in: the check then fails with the text of the
    [KeyError], and the session was created and quit for nothing. *)
Theorem X10_profile_url_echo_and_missing_key i profile env r tr :
  run_worker i profile env = Some (inl r, tr) →
  profile_url r = profile !! "profile_url"
  ∧ (profile !! "profile_url" = None →
     driver_starts (w_driver env) = true →
     login_succeeds (w_login env) = true →
       error r = Some "'profile_url'"
       ∧ resume_found r = false
       ∧ tr = [Created (Worker i); Quit (Worker i)]).
Proof.
  intros Hrun. split; [by apply (run_worker_cases _ _ _ _ _ Hrun)|].
  intros Hkey Hd Hl.
  assert (worker_body i profile env (worker_init profile, [])
          = Some (inr (KeyError "profile_url"),
                  (set_driver (Some (Worker i)) (worker_init profile),
                   [Created (Worker i)]))) as Hbody.
  { unfold worker_body. munfold.
    rewrite (create_driver_started _ _ _ Hd). simpl.
    rewrite (login_passed _ _ Hl). unfold getitem. by rewrite Hkey. }
  rewrite (run_worker_of_body _ _ _ _ _ _ Hbody) in Hrun.
  by injection Hrun as <- <-.
Qed.

Lemma X10_profile_url_echo_and_missing_key_witness :
  ∃ r tr,
    run_worker 7 ∅ resume_page = Some (inl r, tr)
    ∧ profile_url r = None
    ∧ error r = Some "'profile_url'"
    ∧ tr = [Created (Worker 7); Quit (Worker 7)].
Proof.
  destruct (run_worker_returns 7 ∅ resume_page) as [Hrun _].
  destruct (X10_profile_url_echo_and_missing_key _ _ _ _ _ Hrun)
    as [Hurl Hmissing].
  destruct (Hmissing eq_refl eq_refl eq_refl) as (Herr & _ & Htr).
  eexists _, _. split; [exact Hrun|]. split; [exact Hurl|].
  split; [exact Herr|exact Htr].
Defined.

(** X11: a failure of [driver.quit()] is swallowed: the dictionary and
    the events of a worker are the same whether quitting raises or not. *)
Theorem X11_worker_quit_failure_swallowed i profile env o :
  run_worker i profile (with_w_quit o env) = run_worker i profile env.
Proof.
  destruct (worker_body_total i profile env (worker_init profile, []))
    as (out & [l' tr'] & Hbody).
  rewrite (run_worker_of_body _ _ _ _ _ _ Hbody).
  apply run_worker_of_body. by destruct env.
Qed.

(** ** The resume pattern and the deduplication of links *)

Section RegexExtras.
Import PyStr.

Lemma lower_str_nil_inv s : lower_str s = "" → s = "".
Proof. by destruct s. Qed.

Lemma match_here_spec pat s :
  match_here pat s = true
  ↔ ∃ mid post, s = mid +:+ post ∧ lower_str mid = lower_str pat.
Proof.
  revert s. induction pat as [|p pat IH]; intros s.
  - split; [|done]. intros _. by exists "", s.
  - destruct s as [|c s]; simpl.
    + split; [done|]. intros (mid & post & [-> ->]%eq_sym%PyStrFacts.append_nil_inv & E).
      done.
    + rewrite andb_true_iff, IH. split.
      * intros [Hc%Ascii.eqb_eq (mid & post & -> & E)].
        exists (String c mid), post.
        rewrite PyStrFacts.append_String. simpl. by rewrite E, Hc.
      * intros (mid & post & Hs & E). destruct mid as [|c' mid]; [done|].
        rewrite PyStrFacts.append_String in Hs. simpl in E.
        injection Hs as -> ->. injection E as Hc E. split.
        -- apply Ascii.eqb_eq. by rewrite Hc.
        -- by exists mid, post.
Qed.

Lemma alt_here_spec alts s :
  alt_here alts s = true ↔ ∃ pat, pat ∈ alts ∧ match_here pat s = true.
Proof.
  unfold alt_here. rewrite existsb_exists.
  split; intros (pat & Hin & Hm); exists pat; by rewrite list_elem_of_In in *.
Qed.

(** X12: what [re.search] with the resume pattern decides: the text
    matches exactly when some stretch of it equals one of the
    alternatives up to the case of letters, wherever it stands and
    whatever surrounds it. *)
Theorem X12_re_search_is_substring_match alts s :
  re_search alts s = true
  ↔ ∃ pat pre mid post,
      pat ∈ alts ∧ s = pre +:+ mid +:+ post ∧ lower_str mid = lower_str pat.
Proof.
  induction s as [|c s IH]; simpl; rewrite orb_true_iff, alt_here_spec.
  - split.
    + intros [(pat & Hin & (mid & post & -> & E)%match_here_spec) | ?];
        [|done].
      by exists pat, "", mid, post.
    + intros (pat & pre & mid & post & Hin & Hs & E). left.
      symmetry in Hs. apply PyStrFacts.append_nil_inv in Hs as [-> Hs].
      exists pat. split; [done|]. apply match_here_spec.
      exists mid, post. by rewrite Hs.
  - rewrite IH. split.
    + intros [(pat & Hin & (mid & post & -> & E)%match_here_spec)
             | (pat & pre & mid & post & Hin & -> & E)].
      * by exists pat, "", mid, post.
      * exists pat, (String c pre), mid, post.
        by rewrite PyStrFacts.append_String.
    + intros (pat & [|c' pre] & mid & post & Hin & Hs & E).
      * left. exists pat. split; [done|]. apply match_here_spec.
        by exists mid, post.
      * right. rewrite PyStrFacts.append_String in Hs. injection Hs as -> ->.
        by exists pat, pre, mid, post.
Qed.

Lemma re_search_nil alts : re_search alts "" = alt_here alts "" || false.
Proof. reflexivity. Qed.

Lemma re_search_cons alts c s :
  re_search alts (String c s) = alt_here alts (String c s) || re_search alts s.
Proof. reflexivity. Qed.

Lemma match_here_prefix p q s :
  match_here (p +:+ q) s = true → match_here p s = true.
Proof.
  revert s. induction p as [|c p IH]; intros s; [done|].
  rewrite PyStrFacts.append_String. destruct s as [|d s]; simpl; [done|].
  rewrite !andb_true_iff. intros [Hc Hm]. split; [done|]. by apply IH.
Qed.

(** X13: in the link test [\.pdf|\.docx|\.doc] the alternative [\.docx]
    decides nothing: whatever it matches, [\.doc] matches too. *)
Theorem X13_docx_alternative_redundant s :
  re_search FILE_REGEX s = re_search [".pdf"; ".doc"] s.
Proof.
  assert (∀ t, alt_here FILE_REGEX t = alt_here [".pdf"; ".doc"] t) as Halt.
  { intros t. unfold alt_here, FILE_REGEX. cbn [existsb].
    destruct (match_here ".docx" t) eqn:Hx;
      [rewrite (match_here_prefix ".doc" "x" t Hx)|];
      by destruct (match_here ".pdf" t), (match_here ".doc" t). }
  induction s as [|c s IH].
  - by rewrite !re_search_nil, Halt.
  - by rewrite !re_search_cons, Halt, IH.
Qed.

Lemma lower_idemp c : lower (lower c) = lower c.
Proof. destruct c as [[] [] [] [] [] [] [] []]; reflexivity. Qed.

Lemma match_here_lower pat s :
  match_here pat (lower_str s) = match_here pat s.
Proof.
  revert s. induction pat as [|p pat IH]; intros [|c s]; simpl; try done.
  by rewrite lower_idemp, IH.
Qed.

(** X14: the pattern ignores the case of the text: a link or a page
    matches exactly when its lower-case form does. *)
Theorem X14_re_search_ignores_case alts s :
  re_search alts (lower_str s) = re_search alts s.
Proof.
  assert (∀ t, alt_here alts (lower_str t) = alt_here alts t) as Halt.
  { intros t. unfold alt_here. induction alts as [|pat alts IH]; simpl; [done|].
    by rewrite match_here_lower, IH. }
  induction s as [|c s IH].
  - change (lower_str "") with "". done.
  - change (lower_str (String c s)) with (String (lower c) (lower_str s)).
    rewrite !re_search_cons, IH. f_equal. apply (Halt (String c s)).
Qed.

End RegexExtras.

(** X15: [list(dict.fromkeys(links))] keeps exactly the links that were
    there, each once, and doing it again changes nothing. *)
Theorem X15_dict_fromkeys_dedup (links : list string) :
  NoDup (dict_fromkeys links)
  ∧ (∀ href, href ∈ dict_fromkeys links ↔ href ∈ links)
  ∧ dict_fromkeys (dict_fromkeys links) = dict_fromkeys links
  ∧ (length (dict_fromkeys links) ≤ length links)%nat.
Proof.
  rewrite !dict_fromkeys_first_seen.
  split; [apply NoDup_first_seen|]. split; [intros; apply elem_of_first_seen|].
  split; [apply first_seen_NoDup_id, NoDup_first_seen|].
  induction links as [|x l IH]; simpl; [done|].
  pose proof (length_filter (λ y, y ≠ x) (first_seen l)). lia.
Qed.

(** ** [search_endpoint] *)

Section NameExtras.
Import PyStr.





End NameExtras.

Section EndpointExtras.
Variables (fuel : nat) (env : Env) (req : SearchRequest).

Lemma primary_phase_no_browser q m (st : option session * list event) :
  driver_starts (primary_driver env) = false →
  ∃ e, primary_phase fuel env q m st = Some (inr e, st)
       ∧ is_HTTPException e = false.
Proof.
  intros Hd. unfold primary_phase. munfold.
  destruct (create_driver_failed Primary _ st Hd) as [e He].
  destruct (create_driver_run Primary (primary_driver env) st)
    as [H | (e' & H & Hhttp)]; rewrite H in He; [done|].
  rewrite H. eauto.
Qed.

Lemma primary_phase_no_login q m (l : option session) (tr : list event) :
  driver_starts (primary_driver env) = true →
  login_succeeds (primary_login env) = false →
  ∃ e, primary_phase fuel env q m (l, tr)
       = Some (inr e, (Some Primary, tr ++ [Created Primary]))
       ∧ is_HTTPException e = false.
Proof.
  intros Hd Hl. unfold primary_phase. munfold.
  rewrite (create_driver_started _ _ _ Hd). simpl.
  destruct (login_failed (primary_login env)
              (Some Primary, tr ++ [Created Primary]) Hl) as [e He].
  destruct (login_linkedin_run (primary_login env)
              (Some Primary, tr ++ [Created Primary]))
    as [H | (e' & H & Hhttp)]; rewrite H in He; [done|].
  rewrite H. eauto.
Qed.

(** X17: a run whose primary session cannot be created or logged in
    ends at once with [HTTPException 500]: nothing is typed, no worker is
    started, and the primary session, if it was created, is quit.  This
    holds with no scrolling at all. *)
Theorem X17_primary_failure_aborts :
  (driver_starts (primary_driver env) = false →
     ∃ detail, serve fuel env req = Some (inr (HTTPException 500 detail), []))
  ∧ (driver_starts (primary_driver env) = true →
     login_succeeds (primary_login env) = false →
     ∃ detail,
       serve fuel env req
       = Some (inr (HTTPException 500 detail),
               [Created Primary; Quit Primary])).
Proof.
  split.
  - intros Hd. rewrite serve_finish.
    destruct (primary_phase_no_browser (PyStr.strip (query req))
                (effective_max_profiles req) (None, []) Hd) as (e & -> & He).
    simpl. rewrite He. eauto.
  - intros Hd Hl. rewrite serve_finish.
    destruct (primary_phase_no_login (PyStr.strip (query req))
                (effective_max_profiles req) None [] Hd Hl) as (e & -> & He).
    simpl. rewrite He. eauto.
Qed.

(** X18: worker sessions exist only after a collection that found
    something, and their number is bounded by the candidates and so by
    [max_profiles]: an event of worker [i] in the trace means that the
    sequential phase returned more than [i] candidates, at most
    [max_profiles] of them. *)
Theorem X18_workers_only_for_candidates out tr i e :
  serve fuel env req = Some (out, tr) →
  e ∈ tr → worker_event i e →
  ∃ ps w,
    primary_phase fuel env (PyStr.strip (query req))
      (effective_max_profiles req) (None, []) = Some (inl ps, w)
    ∧ (i < length ps)%nat
    ∧ (length ps ≤ Z.to_nat (effective_max_profiles req))%nat.
Proof.
  intros (pout & l & ptr & Hp & Hf)%serve_cases Hin He.
  pose proof (primary_phase_run _ _ _ _ _ _ _ _ _ Hp) as [Hshape Hout].
  assert (e ∉ ptr) as Hptr.
  { destruct Hshape as [(_ & -> & _) | [_ [-> | ->]]]; simpl;
      intros Hx; destruct He as [-> | ->];
      repeat (apply elem_of_cons in Hx as [Hx|Hx]; [done|]);
      by apply elem_of_nil in Hx. }
  assert (e ∉ match l with Some d => [Quit d] | None => [] end) as Hquit.
  { destruct Hshape as [(-> & _) | [-> _]]; simpl; intros Hx.
    - by apply elem_of_nil in Hx.
    - apply list_elem_of_singleton in Hx. by destruct He as [-> | ->]. }
  unfold finish in Hf. destruct pout as [[|p ps]|err].
  - injection Hf as _ <-. apply elem_of_app in Hin as [?|?]; done.
  - exists (p :: ps), (l, ptr). split; [done|].
    destruct Hout as (k & _ & Hps).
    assert (length (p :: ps) ≤ Z.to_nat (effective_max_profiles req))%nat
      by (rewrite Hps, length_fmap, length_take; lia).
    split; [|done].
    assert (e ∈ pool_events env (p :: ps)) as Hpool.
    { destruct (csv_write env); injection Hf as _ <-.
      - rewrite !elem_of_app in Hin. destruct Hin as [[?|?]|?]; done.
      - rewrite !elem_of_app, elem_of_cons in Hin.
        destruct Hin as [[?|?]|[Hs|?]]; try done.
        by destruct He as [-> | ->]. }
    apply pool_events_kinds in Hpool as (i' & Hi' & Hk).
    destruct He as [-> | ->], Hk as [[= <-] | [= <-]]; done.
  - injection Hf as _ <-. apply elem_of_app in Hin as [?|?]; done.
Qed.

(** X19: the primary session is the first thing a request creates and
    the last thing it quits: it stays open while the workers run, and is
    only quit after the file was saved. *)
Theorem X19_primary_session_brackets_the_run out tr :
  serve fuel env req = Some (out, tr) →
  tr ≠ [] →
  head tr = Some (Created Primary) ∧ last tr = Some (Quit Primary).
Proof.
  intros [-> | (typed & mid & saved & -> & _)]%serve_trace Hne; [done|].
  split; [done|]. by rewrite app_comm_cons, last_snoc.
Qed.

End EndpointExtras.

Section TraceExtras.





(** X21: a failure of the primary session's [quit] is swallowed: the
    answer and the events of a request do not depend on it. *)
Theorem X21_primary_quit_failure_swallowed fuel env req o :
  serve fuel (with_primary_quit o env) req = serve fuel env req.
Proof.
  rewrite !serve_finish. by destruct env.
Qed.

Lemma count_found_perm rs rs' : rs ≡ₚ rs' → count_found rs = count_found rs'.
Proof. intros Hp. unfold count_found. by rewrite Hp. Qed.

End TraceExtras.

Lemma X17_primary_failure_aborts_witness :
  driver_starts (primary_driver blocked_env) = true
  ∧ login_succeeds (primary_login blocked_env) = false
  ∧ ∃ detail,
      serve 0 blocked_env demo_request
      = Some (inr (HTTPException 500 detail), [Created Primary; Quit Primary]).
Proof.
  assert (driver_starts (primary_driver blocked_env) = true) as Hd
    by reflexivity.
  assert (login_succeeds (primary_login blocked_env) = false) as Hl
    by reflexivity.
  split; [exact Hd|]. split; [exact Hl|].
  exact (proj2 (X17_primary_failure_aborts 0 blocked_env demo_request) Hd Hl).
Defined.

Lemma X18_workers_only_for_candidates_witness :
  ∃ ps w,
    primary_phase 1 (demo_env ["A"; "B"; "B"; "C"; "D"])
      (PyStr.strip (query demo_request))
      (effective_max_profiles demo_request) (None, []) = Some (inl ps, w)
    ∧ (2 < length ps)%nat
    ∧ (length ps ≤ Z.to_nat (effective_max_profiles demo_request))%nat.
Proof.
  refine (X18_workers_only_for_candidates _ _ _ _ _ 2%nat
            (Created (Worker 2)) demo_run _ _).
  - do 2 right. left.
  - left. reflexivity.
Defined.

Lemma X19_primary_session_brackets_the_run_witness :
  head [Created Primary; Typed Primary "Software Engineer";
        Created (Worker 2); Created (Worker 0); Created (Worker 1);
        Quit (Worker 1); Quit (Worker 0); Quit (Worker 2);
        SavedCsv demo_path [demo_found "C"; demo_found "A"; demo_failed "B"];
        Quit Primary]
  = Some (Created Primary)
  ∧ last [Created Primary; Typed Primary "Software Engineer";
          Created (Worker 2); Created (Worker 0); Created (Worker 1);
          Quit (Worker 1); Quit (Worker 0); Quit (Worker 2);
          SavedCsv demo_path [demo_found "C"; demo_found "A"; demo_failed "B"];
          Quit Primary]
    = Some (Quit Primary).
Proof.
  refine (X19_primary_session_brackets_the_run _ _ _ _ _ demo_run _).
  discriminate.
Defined.


Section OrderExtras.

Lemma pool_results_with_sched sched env ps :
  pool_results (with_completion_sched sched env) ps
  = as_completed sched
      (Some <$> imap (λ i p, worker_result i p (worker_env env i)) ps).
Proof. reflexivity. Qed.

Lemma serve_with_sched fuel env req sched p ps l ptr :
  primary_phase fuel env (PyStr.strip (query req))
    (effective_max_profiles req) (None, []) = Some (inl (p :: ps), (l, ptr)) →
  serve fuel (with_completion_sched sched env) req
  = Some (finish (with_completion_sched sched env) (PyStr.strip (query req))
            (inl (p :: ps), (l, ptr))).
Proof.
  intros Hp. rewrite serve_finish.
  assert (primary_phase fuel (with_completion_sched sched env)
            (PyStr.strip (query req)) (effective_max_profiles req) (None, [])
          = Some (inl (p :: ps), (l, ptr))) as ->
    by (rewrite <- Hp; by destruct env).
  done.
Qed.

(** X22: the order in which the workers complete only permutes the rows
    of the report.  With any other completion order the request gives the
    same [profiles_checked], [resumes_found] and [csv_path], and saves
    the same rows up to their order; every order of the rows is the one
    of some completion order; [results_preview], the first ten rows in
    that order, changes with it. *)
Theorem X22_completion_order_only_permutes_rows fuel env req resp tr :
  serve fuel env req = Some (inl resp, tr) →
  ∃ rows,
    SavedCsv (csv_path resp) rows ∈ tr
    ∧ results_preview resp = take 10 rows
    ∧ (∀ sched, ∃ resp' tr' rows',
         serve fuel (with_completion_sched sched env) req
         = Some (inl resp', tr')
         ∧ SavedCsv (csv_path resp) rows' ∈ tr'
         ∧ rows' ≡ₚ rows
         ∧ profiles_checked resp' = profiles_checked resp
         ∧ resumes_found resp' = resumes_found resp
         ∧ csv_path resp' = csv_path resp
         ∧ results_preview resp' = take 10 rows')
    ∧ (∀ rows', rows' ≡ₚ rows →
         ∃ sched resp' tr',
           serve fuel (with_completion_sched sched env) req
           = Some (inl resp', tr')
           ∧ SavedCsv (csv_path resp) rows' ∈ tr'
           ∧ results_preview resp' = take 10 rows').
Proof.
  intros (pout & l & ptr & Hp & Hf)%serve_cases.
  unfold finish in Hf. destruct pout as [[|p ps]|e]; [done| |done].
  destruct (csv_write env) eqn:Hcsv; [done|]. injection Hf as <- <-.
  exists (pool_results env (p :: ps)). simpl.
  split; [rewrite !elem_of_app; right; by left|]. split; [done|]. split.
  - intros sched.
    assert (pool_results (with_completion_sched sched env) (p :: ps)
            ≡ₚ pool_results env (p :: ps)) as Hperm
      by (by rewrite !pool_results_perm).
    rewrite (serve_with_sched _ _ _ sched _ _ _ _ Hp). simpl. rewrite Hcsv.
    eexists _, _, (pool_results (with_completion_sched sched env) (p :: ps)).
    split; [reflexivity|]. simpl.
    split; [rewrite !elem_of_app; right; by left|]. split; [done|].
    split; [by rewrite !pool_results_length|].
    split; [by apply count_found_perm|]. done.
  - intros rows' Hrows.
    destruct (as_completed_any_order
                (Some <$> imap (λ i q, worker_result i q (worker_env env i))
                            (p :: ps)) rows') as [sched Hs].
    { by rewrite omap_id_Some, Hrows, pool_results_perm. }
    exists sched.
    rewrite (serve_with_sched _ _ _ sched _ _ _ _ Hp). simpl. rewrite Hcsv.
    rewrite pool_results_with_sched, Hs.
    eexists _, _. split; [reflexivity|]. simpl.
    split; [rewrite !elem_of_app; right; by left|done].
Qed.

Lemma X22_completion_order_only_permutes_rows_witness :
  ∃ rows,
    SavedCsv demo_path rows
    ∈ [Created Primary; Typed Primary "Software Engineer";
       Created (Worker 2); Created (Worker 0); Created (Worker 1);
       Quit (Worker 1); Quit (Worker 0); Quit (Worker 2);
       SavedCsv demo_path [demo_found "C"; demo_found "A"; demo_failed "B"];
       Quit Primary]
    ∧ [demo_found "C"; demo_found "A"; demo_failed "B"] = take 10 rows.
Proof.
  destruct (X22_completion_order_only_permutes_rows _ _ _ _ _ demo_run)
    as (rows & Hin & Hpre & _).
  exists rows. split; [exact Hin|exact Hpre].
Defined.

End OrderExtras.

(** [strip] on white space that is not ASCII: a no-break space and a
    space before the text, an em space and a tab after it. *)
Lemma strip_unicode_white_space :
  PyStr.strip
    (String (ascii_of_N 194) (String (ascii_of_N 160)
       (" a b" +:+ String (ascii_of_N 226) (String (ascii_of_N 128)
                      (String (ascii_of_N 131) (String (ascii_of_N 9) ""))))))
  = "a b".
Proof. vm_compute. reflexivity. Qed.

(** * The loop on a page that never comes to rest *)

Section NeverEnds.
Context {L : Type}.
Variables (max : Z) (env : SearchEnv).
Hypothesis Hanswers :
  ∀ i, ∃ lis h, pass_lis (pass env i) = inl lis
                ∧ pass_scroll (pass env i) = None
                ∧ pass_new_height (pass env i) = inl h.
Hypothesis Hfew : ∀ k, Z.of_nat (length (first_seen (feed env k))) < max.
Hypothesis Hmoves :
  ∀ k, ∃ j, (j < 30)%nat ∧ height_at env (S (k + j)) ≠ height_at env (k + j).

Lemma guard_stays_true i c :
  collected (Z.to_nat max) (feed env i) c → stalled_for env i c →
  loop_guard max c = true.
Proof.
  intros [Hp _] [Ht Hh]. unfold loop_guard, STALL_BOUND.
  apply andb_true_iff. split; apply Z.ltb_lt.
  - rewrite Hp, length_fmap, length_take. specialize (Hfew i). lia.
  - destruct (Z_lt_ge_dec (scroll_tries c) 30) as [?|Hge]; [done|exfalso].
    destruct (Hmoves (i - 30)) as (j & Hj & Hne). apply Hne.
    replace (S (i - 30 + j)) with (i - (29 - j))%nat by lia.
    replace (i - 30 + j)%nat with (i - (30 - j))%nat by lia.
    rewrite !Hh by lia. done.
Qed.

Lemma scroll_loop_never_ends fuel i c (w : L * list event) :
  collected (Z.to_nat max) (feed env i) c → stalled_for env i c →
  scroll_loop fuel max env i c w = None.
Proof.
  revert i c. induction fuel as [|fuel IH]; intros i c Hc Hs;
    rewrite scroll_loop_unfold, (guard_stays_true _ _ Hc Hs); [done|].
  destruct (Hanswers i) as (lis & h & Hlis & Hscroll & Hh).
  unfold pass_step. rewrite Hlis, Hscroll, Hh. apply IH.
  - simpl. rewrite Hlis. by apply collected_note_height, scan_rows_collected.
  - by apply note_height_stalled, stalled_for_scan.
Qed.

End NeverEnds.

(** C5, amended: the loop is left exactly when [max_profiles] candidates
    are collected or the stall counter has reached 30, and it is left at
    once, without another turn.  The collector ends (with a list or an
    exception) on every page whose scroll height is read unchanged at 30
    turns in a row.  It never ends on a page that can be searched, whose
    calls never raise, that never renders [max_profiles] distinct
    candidates and whose height changes at least once in every 30 turns.
    A page stalled at 5 distinct candidates with [max_profiles = 20]
    gives exactly these 5 after 30 turns, and not before. *)
Theorem C5_loop_exit_and_stall_termination :
  (∀ max st,
     loop_guard max st = false
     ↔ max ≤ Z.of_nat (length (profiles st)) ∨ 30 ≤ scroll_tries st)
  ∧ (∀ fuel max env i st (w : unit * list event),
       loop_guard max st = false →
       scroll_loop fuel max env i st w = Some (inl st, w))
  ∧ (∀ fuel d q max env (w : unit * list event) k h,
       (∀ j, (j ≤ 30)%nat → height_at env (k + j) = inl h) →
       (k + 30 ≤ fuel)%nat →
       ∃ out w', search_and_collect_profiles fuel d q max env w
                 = Some (out, w'))
  ∧ (∀ fuel d q max env (w w' : unit * list event) h,
       submit_search d q env w = Some (inl h, w') →
       (∀ i, ∃ lis h', pass_lis (pass env i) = inl lis
                       ∧ pass_scroll (pass env i) = None
                       ∧ pass_new_height (pass env i) = inl h') →
       (∀ k, Z.of_nat (length (first_seen (feed env k))) < max) →
       (∀ k, ∃ j, (j < 30)%nat
                  ∧ height_at env (S (k + j)) ≠ height_at env (k + j)) →
       search_and_collect_profiles fuel d q max env w = None)
  ∧ (∀ fuel, (30 ≤ fuel)%nat →
       search_and_collect_profiles fuel Primary "Software Engineer" 20
         (still_page five_links) ((), [])
       = Some (inl (candidate <$> five_links),
               ((), [Typed Primary "Software Engineer"])))
  ∧ search_and_collect_profiles 29 Primary "Software Engineer" 20
      (still_page five_links) ((), [])
    = None.
Proof.
  split; [|split; [|split; [|split; [|split]]]].
  - intros max st. unfold loop_guard, STALL_BOUND.
    rewrite andb_false_iff, !Z.ltb_ge. done.
  - intros fuel max env i st w Hg. rewrite scroll_loop_unfold. by rewrite Hg.
  - intros fuel d q max env w k h Hh Hfuel. by eapply collect_terminates.
  - intros fuel d q max env [l tr] w' h Hsubmit Hanswers Hfew Hmoves.
    unfold search_and_collect_profiles. munfold. rewrite Hsubmit.
    destruct (submit_search_run d q env l tr) as (o & w1 & Hs & _ & Ho).
    rewrite Hsubmit in Hs. injection Hs as <- <-.
    rewrite (scroll_loop_never_ends max env Hanswers Hfew Hmoves); [done| |].
    + apply collected_start.
    + unfold stalled_for. simpl. split; [lia|].
      intros j Hj. assert (j = 0%nat) as -> by lia. done.
  - intros fuel Hfuel. apply (collect_fuel 30); [done|].
    vm_compute. reflexivity.
  - vm_compute. reflexivity.
Qed.

Lemma C5_loop_exit_and_stall_termination_witness :
  ((∀ j, (j ≤ 30)%nat → height_at (still_page five_links) (0 + j) = inl 1000)
   ∧ (0 + 30 ≤ 30)%nat
   ∧ ∃ out w',
       search_and_collect_profiles 30 Primary "Software Engineer" 20
         (still_page five_links) ((), [])
       = Some (out, w'))
  ∧ (submit_search Primary "Software Engineer" endless_page ((), [])
     = Some (inl 1000, ((), [Typed Primary "Software Engineer"]))
     ∧ search_and_collect_profiles 1000 Primary "Software Engineer" 20
         endless_page ((), [])
       = None).
Proof.
  assert (∀ j, (j ≤ 30)%nat → height_at (still_page five_links) (0 + j) = inl 1000)
    as Hstall by (intros [|j] _; reflexivity).
  assert (0 + 30 ≤ 30)%nat as Hfuel by lia.
  assert (submit_search Primary "Software Engineer" endless_page ((), [])
          = Some (inl 1000, ((), [Typed Primary "Software Engineer"])))
    as Hsubmit by reflexivity.
  assert (∀ i, ∃ lis h', pass_lis (pass endless_page i) = inl lis
                         ∧ pass_scroll (pass endless_page i) = None
                         ∧ pass_new_height (pass endless_page i) = inl h')
    as Hanswers by (intros i; eexists _, _; repeat split).
  assert (∀ k, Z.of_nat (length (first_seen (feed endless_page k))) < 20)
    as Hfew.
  { intros k. assert (feed endless_page k = []) as ->; [|simpl; lia].
    induction k as [|k IH]; [done|]. simpl. by rewrite IH. }
  assert (∀ k, ∃ j, (j < 30)%nat
            ∧ height_at endless_page (S (k + j)) ≠ height_at endless_page (k + j))
    as Hmoves.
  { intros k. exists 0%nat. split; [lia|]. rewrite Nat.add_0_r.
    destruct k as [|k]; simpl; intros [= E]; lia. }
  split.
  - split; [exact Hstall|]. split; [exact Hfuel|].
    exact (proj1 (proj2 (proj2 C5_loop_exit_and_stall_termination))
             30%nat Primary "Software Engineer" 20 (still_page five_links)
             ((), []) 0%nat 1000 Hstall Hfuel).
  - split; [exact Hsubmit|].
    exact (proj1 (proj2 (proj2 (proj2 C5_loop_exit_and_stall_termination)))
             1000%nat Primary "Software Engineer" 20 endless_page
             ((), []) _ 1000 Hsubmit Hanswers Hfew Hmoves).
Defined.

(** * The query on its way through the handler *)

Section QueryUsed.
Context {L : Type}.

Lemma submit_search_typed d q env (l : L) tr out st' :
  search_submits env = true →
  submit_search d q env (l, tr) = Some (out, st') →
  st' = (l, tr ++ [Typed d q]).
Proof.
  unfold search_submits, submit_search. munfold.
  destruct env as [x p c sq sr rl ih ps]. simpl.
  destruct x as [[]|], p as [[]|], c, sq; simpl; try done; intros _;
    destruct sr as [f|]; simpl; try (by intros [= _ <-]);
    destruct rl as [[]|]; simpl; try (by intros [= _ <-]);
    destruct ih; simpl; by intros [= _ <-].
Qed.

Lemma collect_typed fuel d q max env (l : L) tr out st' :
  search_submits env = true →
  search_and_collect_profiles fuel d q max env (l, tr) = Some (out, st') →
  st' = (l, tr ++ [Typed d q]).
Proof.
  intros Hsub. unfold search_and_collect_profiles. munfold.
  destruct (submit_search d q env (l, tr)) as [[[h|e] w]|] eqn:Hs; [| |done].
  - apply (submit_search_typed _ _ _ _ _ _ _ Hsub) in Hs as ->.
    destruct (scroll_loop _ _ _ _ _ _) as [[[c|e] w']|] eqn:Hloop; [| |done].
    + apply scroll_loop_run in Hloop as [-> _]; [|apply collected_start].
      by intros [= _ <-].
    + apply scroll_loop_run in Hloop as [-> _]; [|apply collected_start].
      by intros [= _ <-].
  - apply (submit_search_typed _ _ _ _ _ _ _ Hsub) in Hs as ->.
    by intros [= _ <-].
Qed.

End QueryUsed.

Lemma primary_phase_typed fuel env q m l tr out l' tr' :
  driver_starts (primary_driver env) = true →
  login_succeeds (primary_login env) = true →
  search_submits (site env q) = true →
  primary_phase fuel env q m (l, tr) = Some (out, (l', tr')) →
  tr' = tr ++ [Created Primary; Typed Primary q].
Proof.
  intros Hd Hl Hs. unfold primary_phase. munfold.
  rewrite (create_driver_started _ _ _ Hd). simpl.
  rewrite (login_passed _ _ Hl).
  intros [= _ ->]%(collect_typed _ _ _ _ _ _ _ _ _ Hs).
  by rewrite <- app_assoc.
Qed.

Lemma finish_keeps_trace env q pout l ptr out tr e :
  finish env q (pout, (l, ptr)) = (out, tr) → e ∈ ptr → e ∈ tr.
Proof.
  unfold finish. intros Hf He.
  destruct pout as [[|p ps]|err]; [| destruct (csv_write env) |];
    injection Hf as _ <-; rewrite !elem_of_app; auto.
Qed.

Lemma replace_char_get a b s i :
  String.get i (PyStr.replace_char a b s)
  = (λ c, if Ascii.eqb c a then b else c) <$> String.get i s.
Proof.
  revert i. induction s as [|c s IH]; intros i; [done|].
  destruct i as [|i]; simpl; [done|]. apply IH.
Qed.

(** C10: the handler works with [req.query.strip()] throughout.  This is
    the only text it types into the search box, and it does type it
    whenever the primary session starts, logs in and finds the search
    box; the saved file is named [results_], this text with each space
    turned into an underscore, [_], the time stamp and [.csv]; and it is
    the [query] of the answer.  It has no white space at either end and
    differs from the caller's text only by white space around it.
    Nothing looks at whether it is empty: a query of white space only is
    served as the empty query is, the empty string is typed into the
    search box, and the request completes whenever the collection
    returns candidates and the file can be written. *)
Theorem C10_query_is_stripped_not_rejected fuel env req out tr :
  serve fuel env req = Some (out, tr) →
  (∀ s text, Typed s text ∈ tr →
     s = Primary ∧ text = PyStr.strip (query req))
  ∧ (driver_starts (primary_driver env) = true →
     login_succeeds (primary_login env) = true →
     search_submits (site env (PyStr.strip (query req))) = true →
       Typed Primary (PyStr.strip (query req)) ∈ tr)
  ∧ (∀ path rows, SavedCsv path rows ∈ tr →
       path = PyStr.os_path_join (OUTPUT_DIR env)
                ("results_"
                 +:+ PyStr.replace_char " " "_" (PyStr.strip (query req))
                 +:+ "_" +:+ utcnow env +:+ ".csv"))
  ∧ (∀ i, String.get i (PyStr.replace_char " " "_" (PyStr.strip (query req)))
          = (λ c, if Ascii.eqb c " " then "_"%char else c)
              <$> String.get i (PyStr.strip (query req)))
  ∧ (∀ resp, out = inl resp →
       resp_query resp = PyStr.strip (query req)
       ∧ csv_path resp
         = PyStr.os_path_join (OUTPUT_DIR env)
             ("results_"
              +:+ PyStr.replace_char " " "_" (PyStr.strip (query req))
              +:+ "_" +:+ utcnow env +:+ ".csv"))
  ∧ (∀ p ps w,
       primary_phase fuel env (PyStr.strip (query req))
         (effective_max_profiles req) (None, []) = Some (inl (p :: ps), w) →
       csv_write env = None →
       ∃ resp, out = inl resp ∧ status resp = "completed")
  ∧ (PyStr.head_space (PyStr.strip (query req)) = None
     ∧ (∀ a b, PyStr.strip (query req) = a +:+ b →
               PyStr.all_space b = true → b = "")
     ∧ ∃ pre post,
         query req = pre +:+ PyStr.strip (query req) +:+ post
         ∧ PyStr.all_space pre = true ∧ PyStr.all_space post = true)
  ∧ (PyStr.all_space (query req) = true →
       PyStr.strip (query req) = ""
       ∧ serve fuel env {| query := ""; max_profiles := max_profiles req |}
         = Some (out, tr)
       ∧ (driver_starts (primary_driver env) = true →
          login_succeeds (primary_login env) = true →
          search_submits (site env "") = true →
            Typed Primary "" ∈ tr)).
Proof.
  intros Hrun.
  assert (driver_starts (primary_driver env) = true →
          login_succeeds (primary_login env) = true →
          search_submits (site env (PyStr.strip (query req))) = true →
          Typed Primary (PyStr.strip (query req)) ∈ tr) as Htyped.
  { intros Hd Hl Hs.
    pose proof Hrun as (pout & l & ptr & Hp & Hf)%serve_cases.
    apply (primary_phase_typed _ _ _ _ _ _ _ _ _ Hd Hl Hs) in Hp as ->.
    apply (finish_keeps_trace _ _ _ _ _ _ _ _ Hf). simpl. right. by left. }
  assert (∀ path rows, SavedCsv path rows ∈ tr →
            path = PyStr.os_path_join (OUTPUT_DIR env)
                     (csv_filename (PyStr.strip (query req)) (utcnow env)))
    as Hsaved.
  { intros path rows Hin.
    pose proof Hrun as
      [-> | (typed & mid & saved & -> & Ht & Hm & Hs)]%serve_trace;
      [by apply elem_of_nil in Hin|].
    rewrite elem_of_cons, !elem_of_app, list_elem_of_singleton in Hin.
    destruct Hin as [?|[[Hin|[Hin|Hin]]|?]]; [done| | | |done].
    - destruct Ht as [-> | ->]; [by apply elem_of_nil in Hin|].
      by apply list_elem_of_singleton in Hin.
    - destruct Hm as [-> | [ps ->]]; [by apply elem_of_nil in Hin|].
      apply pool_events_kinds in Hin as (i & _ & [? | ?]); done.
    - destruct Hs as [-> | [rows' ->]]; [by apply elem_of_nil in Hin|].
      apply list_elem_of_singleton in Hin. by injection Hin as -> _. }
  split; [|split; [done|split; [done|split; [|split; [|split; [|split]]]]]].
  - intros s text Hin.
    pose proof Hrun as
      [-> | (typed & mid & saved & -> & Ht & Hm & Hs)]%serve_trace;
      [by apply elem_of_nil in Hin|].
    rewrite elem_of_cons, !elem_of_app, list_elem_of_singleton in Hin.
    destruct Hin as [?|[[Hin|[Hin|Hin]]|?]]; [done| | | |done].
    + destruct Ht as [-> | ->]; [by apply elem_of_nil in Hin|].
      apply list_elem_of_singleton in Hin. by injection Hin as -> ->.
    + destruct Hm as [-> | [ps ->]]; [by apply elem_of_nil in Hin|].
      apply pool_events_kinds in Hin as (i & _ & [? | ?]); done.
    + destruct Hs as [-> | [rows ->]]; [by apply elem_of_nil in Hin|].
      by apply list_elem_of_singleton in Hin.
  - intros i. apply replace_char_get.
  - intros resp ->.
    apply serve_cases in Hrun as (pout & l & ptr & _ & Hf).
    unfold finish in Hf. destruct pout as [[|p ps]|e]; [done| |done].
    destruct (csv_write env); [done|]. by injection Hf as <- _.
  - intros p ps [l0 ptr0] Hp Hcsv.
    apply serve_cases in Hrun as (pout & l & ptr & Hp' & Hf).
    rewrite Hp in Hp'. injection Hp' as <- <- <-.
    unfold finish in Hf. rewrite Hcsv in Hf. injection Hf as <- _.
    by eexists.
  - destruct (PyStrFacts.strip_clean (query req)) as [H1 H2].
    split; [done|]. split; [done|]. apply PyStrFacts.strip_split.
  - intros Hblank. pose proof (PyStrFacts.strip_all_space _ Hblank) as E.
    split; [done|]. split; [by rewrite <- E, serve_stripped|].
    rewrite <- E. exact Htyped.
Qed.

Lemma C10_query_is_stripped_not_rejected_witness :
  PyStr.all_space (query blank_request) = true
  ∧ PyStr.strip (query blank_request) = ""
  ∧ (∃ resp tr,
       serve 1 (demo_env ["A"; "B"; "B"; "C"; "D"])
         {| query := ""; max_profiles := max_profiles blank_request |}
       = Some (inl resp, tr)
       ∧ resp_query resp = ""
       ∧ Typed Primary "" ∈ tr)
  ∧ Typed Primary ""
    ∈ [Created Primary; Typed Primary "";
       Created (Worker 2); Created (Worker 0); Created (Worker 1);
       Quit (Worker 1); Quit (Worker 0); Quit (Worker 2);
       SavedCsv "/app/output/results__20240101T000000Z.csv"
         [demo_found "C"; demo_found "A"; demo_failed "B"];
       Quit Primary].
Proof.
  assert (PyStr.all_space (query blank_request) = true) as Hblank
    by reflexivity.
  destruct (proj2 (proj2 (proj2 (proj2 (proj2 (proj2 (proj2
              (C10_query_is_stripped_not_rejected _ _ _ _ _ blank_run)))))))
              Hblank) as (Hstrip & Hserve & Htyped).
  split; [exact Hblank|]. split; [exact Hstrip|]. split.
  - eexists _, _. split; [exact Hserve|]. split; [reflexivity|].
    right. left.
  - exact (Htyped eq_refl eq_refl eq_refl).
Defined.
